(** * Recipe summarisation: cheapest cost and merged nutrient facts

    A shallow embedding of [utils.ts] ([findLowestCostProduct],
    [calculateRealCost], [aggregateNutrients], [sortKeys], [summarizeRecipe])
    and of the loop of the script [main.ts], with the properties the
    specification states about them and further properties of the code.

    - A JavaScript [number] is an IEEE 754 binary64 value: [spec_float] with
      the operations of the Standard Library at precision 53.
    - An object used as a dictionary is the list of its own properties in
      creation order; [own_keys] is the order in which [Object.keys] lists
      them.  Every such object starts as [{}], so it inherits the members
      of [Object.prototype]: a read [o[k]] of a key that is no own property
      finds the inherited member when [k] names one ([inherited]), and an
      assignment [o[k] = v] ([assign]) creates an own property unless [k]
      is ["__proto__"], which goes to the inherited setter and creates
      none.  [Object.prototype] is taken as the language defines it, and
      the values stored are plain data: no accessors, nothing read-only.
    - [aggregateNutrients] writes [quantityAmount.uomAmount] in place, so the
      unit-of-measure objects that nutrient facts point to live in a heap and
      a fact holds a reference into it.  Nothing else is ever assigned to, so
      every other object is a value.
    - The functions imported from [supporting-files] are not part of the
      sources at hand: they are the fields of the class [Collaborators]. *)

From Stdlib Require Import ZArith NArith Lia Ascii String Floats.SpecFloat Sorting.Sorted.
From stdpp Require Import base list strings sorting.

Open Scope string_scope.
Open Scope list_scope.

(** ** Numbers *)

Module Number.

Definition number : Type := spec_float.

Definition prec : Z := 53.
Definition emax : Z := 1024.

(** [a + b], [a * b], [a < b] and [a <= b] on numbers. *)
Definition add : number -> number -> number := SFadd prec emax.
Definition mul : number -> number -> number := SFmul prec emax.
Definition div : number -> number -> number := SFdiv prec emax.
Definition lt : number -> number -> bool := SFltb.
Definition le : number -> number -> bool := SFleb.

(** The literals [0], [Infinity] and [NaN]. *)
Definition zero : number := S754_zero false.
Definition Infinity : number := S754_infinity false.
Definition NaN : number := S754_nan.

Definition is_nan (x : number) : bool :=
  match x with S754_nan => true | _ => false end.

(** The number nearest to the integer [z] (ties to even). *)
Definition of_Z (z : Z) : number := binary_normalize prec emax z 0 false.

(** A [spec_float] is a binary64 number when its mantissa is canonical. *)
Definition binary64 (x : number) : Prop := valid_binary prec emax x = true.

End Number.
Import Number.

(** ** Objects used as dictionaries *)

Module JsObject.

(** Own properties, oldest first; no key occurs twice. *)
Abbreviation jsobject V := (list (string * V)).

Definition empty {V} : jsobject V := [].

(** The value of the own property [k] of [o], if there is one: what a read
    [o[k]] gives then.  Without an own property the read gives the member
    inherited under [k], if [k] names one, and [undefined] otherwise. *)
Fixpoint get {V} (k : string) (o : jsobject V) : option V :=
  match o with
  | [] => None
  | (k', v) :: o' => if String.eqb k k' then Some v else get k o'
  end.

(** The own property [k] of [o] becomes [v]: an existing property keeps its
    place, a new one is created last. *)
Fixpoint set {V} (k : string) (v : V) (o : jsobject V) : jsobject V :=
  match o with
  | [] => [(k, v)]
  | (k', v') :: o' =>
      if String.eqb k k' then (k, v) :: o' else (k', v') :: set k v o'
  end.

(** The members an object inherits from [Object.prototype]; each holds a
    function, or, for ["__proto__"], gives the prototype: none is falsy,
    and none has a property [quantityAmount]. *)
Definition inherited_names : list string :=
  ["constructor"; "hasOwnProperty"; "isPrototypeOf"; "propertyIsEnumerable";
   "toLocaleString"; "toString"; "valueOf"; "__proto__";
   "__defineGetter__"; "__defineSetter__"; "__lookupGetter__"; "__lookupSetter__"].

Definition inherited (k : string) : bool :=
  existsb (String.eqb k) inherited_names.

(** [o[k] = v].  An own property is written; a key that is no own property
    becomes one, created last, except ["__proto__"]: that assignment calls
    the setter inherited from [Object.prototype], which makes [v] the
    prototype of [o] and creates no property.  The list of own properties
    is what the model keeps of [o]. *)
Definition assign {V} (k : string) (v : V) (o : jsobject V) : jsobject V :=
  match get k o with
  | Some _ => set k v o
  | None => if String.eqb k "__proto__" then o else set k v o
  end.

Definition digit (c : ascii) : option N :=
  let n := N_of_ascii c in
  if ((48 <=? n) && (n <=? 57))%N then Some (n - 48)%N else None.

Fixpoint decimal (acc : N) (s : string) : option N :=
  match s with
  | EmptyString => Some acc
  | String c s' =>
      match digit c with
      | Some d => decimal (10 * acc + d)%N s'
      | None => None
      end
  end.

(** A key is an array index when it is the canonical decimal spelling of
    an integer below 2^32 - 1: ["0"], ["7"], ["10"], but not ["07"],
    ["1.0"] or ["-1"]. *)
Definition array_index (k : string) : option N :=
  match k with
  | EmptyString => None
  | String c rest =>
      if Ascii.eqb c "0" && negb (String.eqb rest EmptyString) then None
      else match decimal 0 k with
           | Some n => if (n <? 4294967295)%N then Some n else None
           | None => None
           end
  end.

Definition is_array_index (k : string) : bool :=
  match array_index k with Some _ => true | None => false end.

Fixpoint insert_index (x : N * string) (l : list (N * string)) : list (N * string) :=
  match l with
  | [] => [x]
  | y :: l' => if (x.1 <=? y.1)%N then x :: l else y :: insert_index x l'
  end.

Definition sort_indices (l : list (N * string)) : list (N * string) :=
  foldr insert_index [] l.

Definition index_keys (ks : list string) : list (N * string) :=
  omap (fun k => match array_index k with Some n => Some (n, k) | None => None end) ks.

(** [Object.keys(o)]: array indices in ascending numeric order, then the
    other keys in the order they were created. *)
Definition own_keys {V} (o : jsobject V) : list string :=
  (sort_indices (index_keys o.*1)).*2
    ++ filter (fun k => is_array_index k = false) o.*1.

(** [keys.sort()]: ascending by code units. *)
Fixpoint insert_key (k : string) (l : list string) : list string :=
  match l with
  | [] => [k]
  | k' :: l' => if String.leb k k' then k :: l else k' :: insert_key k l'
  end.

Definition sort (l : list string) : list string := foldr insert_key [] l.

(** [a] comes before [b]: it is smaller, compared code unit by code unit. *)
Definition ascending (a b : string) : Prop := String.ltb a b = true.

End JsObject.
Import JsObject.

(** ** Data model ([supporting-files/models]) *)

(** Modelled from the spec: the record types of [supporting-files/models],
    which the sources import and never inspect beyond the fields below. *)
Record UnitOfMeasure := {
  uomType : string;
  uomName : string;
  uomAmount : number
}.

(** A reference to a unit-of-measure object of the heap. *)
Abbreviation loc := nat.
Abbreviation heap := (list UnitOfMeasure).

(** [{ ...u, uomAmount: a }] *)
Definition with_amount (u : UnitOfMeasure) (a : number) : UnitOfMeasure :=
  {| uomType := uomType u; uomName := uomName u; uomAmount := a |}.

Record NutrientFact := {
  nutrientName : string;
  quantityAmount : loc
}.

Record SupplierProduct := {
  supplierPrice : number;
  supplierProductUoM : UnitOfMeasure
}.

Record Product := {
  productName : string;
  supplierProducts : list SupplierProduct;
  nutrientFacts : list NutrientFact
}.

Record RecipeLineItem := {
  ingredient : string;
  unitOfMeasure : UnitOfMeasure
}.

Record Recipe := {
  recipeName : string;
  lineItems : list RecipeLineItem
}.

Record RecipeSummary := {
  cheapestCost : number;
  nutrientsAtCheapestCost : jsobject NutrientFact
}.

(** ** Exceptions and effects *)

Inductive exn :=
  | NoCandidatesError
      (* new Error("No products available for the given ingredient.") *)
  | CollaboratorError (message : string)
      (* whatever a function of [supporting-files] throws *)
  | TypeError.
      (* a property read through a reference that holds no object *)

(** What a call of an imported function does: it returns or it throws. *)
Inductive external (A : Type) :=
  | Returns (a : A)
  | Raises (message : string).
Arguments Returns {A} a.
Arguments Raises {A} message.

Inductive outcome (A : Type) :=
  | Normal (a : A)
  | Throw (e : exn).
Arguments Normal {A} a.
Arguments Throw {A} e.

(** Code that reads and writes a state [S] and may throw; what was written
    before a throw stays written. *)
Definition M (S A : Type) : Type := S -> outcome A * S.

Definition ret {S A} (a : A) : M S A := fun s => (Normal a, s).

Definition bind {S A B} (m : M S A) (k : A -> M S B) : M S B :=
  fun s =>
    match m s with
    | (Normal a, s') => k a s'
    | (Throw e, s') => (Throw e, s')
    end.

Definition throw {S A} (e : exn) : M S A := fun s => (Throw e, s).

Definition call {S A} (r : external A) : M S A :=
  match r with
  | Returns a => ret a
  | Raises message => throw (CollaboratorError message)
  end.

Definition read {S} : M S S := fun s => (Normal s, s).
Definition write {S} (s : S) : M S unit := fun _ => (Normal tt, s).

Declare Scope js_scope.
Delimit Scope js_scope with js.
Notation "'let*' x ':=' m 'in' k" := (bind m (fun x => k))
  (at level 10, x pattern, m at level 100, k at level 200) : js_scope.
Notation "m '>>' k" := (bind m (fun _ => k))
  (at level 100, k at level 200, right associativity) : js_scope.
Open Scope js_scope.

(** [xs.forEach(body)] and [for (const x of xs) body]. *)
Fixpoint forEach {S A} (body : A -> M S unit) (xs : list A) : M S unit :=
  match xs with
  | [] => ret tt
  | x :: xs' => body x >> forEach body xs'
  end.

(** ** The imported functions *)

(** What [GetNutrientFactInBaseUnits] returns as the [quantityAmount] of its
    result: the very object its argument holds, or a new object. *)
Inductive converted :=
  | SameObject
  | NewObject (u : UnitOfMeasure).

(** Modelled from the spec: the functions of [supporting-files/data-access]
    and [supporting-files/helpers] (section 6 of the specification).  Each
    is a function of the values it is given; [GetNutrientFactInBaseUnits]
    receives the fact's name and the unit of measure its [quantityAmount]
    holds at the time of the call, and answers the name of the fact it
    returns and where that fact's [quantityAmount] lives. *)
Class Collaborators := {
  GetProductsForIngredient : string -> list Product;
  GetCostPerBaseUnit : SupplierProduct -> external number;
  GetBaseUoM : string -> external UnitOfMeasure;
  ConvertUnits : UnitOfMeasure -> string -> string -> external UnitOfMeasure;
  GetNutrientFactInBaseUnits : string -> UnitOfMeasure -> external (string * converted)
}.

(** ** The program ([utils.ts]) *)

Section Program.

Context `{Collaborators}.

(** [function calculateRealCost(realUoM, basePrice)] *)
Definition calculateRealCost {S} (realUoM : UnitOfMeasure) (basePrice : number) : M S number :=
  let* baseUnitOfMeasure := call (GetBaseUoM (uomType realUoM)) in
  let* convertedUoM := call (ConvertUnits realUoM (uomName baseUnitOfMeasure) (uomType baseUnitOfMeasure)) in
  ret (mul basePrice (uomAmount convertedUoM)).

(** The two local variables of [findLowestCostProduct]. *)
Record lowest := {
  lowestCostProduct : option Product;   (* Product | null *)
  lowestCost : number
}.

(** The body of the inner loop. *)
Definition considerOffer (lineItem : RecipeLineItem) (product : Product)
    (supplierProduct : SupplierProduct) : M lowest unit :=
  let* baseCost := call (GetCostPerBaseUnit supplierProduct) in
  let* realCost := calculateRealCost (unitOfMeasure lineItem) baseCost in
  let* st := read in
  if lt realCost (lowestCost st)
  then write {| lowestCostProduct := Some product; lowestCost := realCost |}
  else ret tt.

(** [function findLowestCostProduct(lineItem)] *)
Definition findLowestCostProduct (lineItem : RecipeLineItem) : outcome (Product * number) :=
  let products := GetProductsForIngredient (ingredient lineItem) in
  let scan :=
    forEach (fun product =>
      forEach (considerOffer lineItem product) (supplierProducts product)) products in
  match scan {| lowestCostProduct := None; lowestCost := Infinity |} with
  | (Throw e, _) => Throw e
  | (Normal _, st) =>
      match lowestCostProduct st with
      | None => Throw NoCandidatesError
      | Some product => Normal (product, lowestCost st)
      end
  end.

(** The state [aggregateNutrients] works on: the dictionary it is handed
    and the heap. *)
Record totals := {
  existingNutrientFacts : jsobject NutrientFact;
  memory : heap
}.

(** A call of [GetNutrientFactInBaseUnits(fact)]: a new object is
    allocated at the end of the heap. *)
Definition callGetNutrientFactInBaseUnits (fact : NutrientFact) : M totals NutrientFact :=
  let* st := read in
  match memory st !! quantityAmount fact with
  | None => throw TypeError
  | Some u =>
      let* (name, q) := call (GetNutrientFactInBaseUnits (nutrientName fact) u) in
      match q with
      | SameObject =>
          ret {| nutrientName := name; quantityAmount := quantityAmount fact |}
      | NewObject u' =>
          write {| existingNutrientFacts := existingNutrientFacts st;
                   memory := memory st ++ [u'] |} >>
          ret {| nutrientName := name; quantityAmount := length (memory st) |}
      end
  end.

(** The callback of [newNutrientFacts.forEach] in [aggregateNutrients].
    The test [if (existingNutrientFacts[fact.nutrientName])] succeeds for an
    own property, which holds a fact, and for a member inherited from
    [Object.prototype]. *)
Definition aggregateFact (fact : NutrientFact) : M totals unit :=
  let* baseUnitFact := callGetNutrientFactInBaseUnits fact in
  let* st := read in
  match get (nutrientName fact) (existingNutrientFacts st) with
  | Some existing =>
      (* existing.quantityAmount.uomAmount += baseUnitFact.quantityAmount.uomAmount *)
      match memory st !! quantityAmount existing, memory st !! quantityAmount baseUnitFact with
      | Some target, Some source =>
          write {| existingNutrientFacts := existingNutrientFacts st;
                   memory := <[quantityAmount existing :=
                                 with_amount target (add (uomAmount target) (uomAmount source))]>
                               (memory st) |}
      | _, _ => throw TypeError
      end
  | None =>
      if inherited (nutrientName fact)
      then
        (* the test finds the inherited member, which has no
           [quantityAmount]: reading [uomAmount] through it throws *)
        throw TypeError
      else
        write {| existingNutrientFacts :=
                   assign (nutrientName fact) baseUnitFact (existingNutrientFacts st);
                 memory := memory st |}
  end.

(** [function aggregateNutrients(existingNutrientFacts, newNutrientFacts)] *)
Definition aggregateNutrients (newNutrientFacts : list NutrientFact) : M totals unit :=
  forEach aggregateFact newNutrientFacts.

(** [function sortKeys(object)].  [result[key] = object[key]] is an
    assignment to an object that starts as [{}]: an entry under
    ["__proto__"] does not become a property of the result. *)
Definition sortKeys {V} (object : jsobject V) : jsobject V :=
  fold_left
    (fun result key =>
       match get key object with
       | Some v => assign key v result
       | None => result
       end)
    (sort (own_keys object)) empty.

(** The variables [summarizeRecipe] declares, and the heap. *)
Record locals := {
  totalCost : number;
  totalNutrients : jsobject NutrientFact;
  store : heap
}.

(** The callback of [recipe.lineItems.forEach] in [summarizeRecipe]. *)
Definition summarizeLineItem (lineItem : RecipeLineItem) : M locals unit :=
  fun st =>
    match findLowestCostProduct lineItem with
    | Throw e => (Throw e, st)
    | Normal (product, cost) =>
        let totalCost' := add (totalCost st) cost in
        let '(r, t) :=
          aggregateNutrients (nutrientFacts product)
            {| existingNutrientFacts := totalNutrients st; memory := store st |} in
        (r, {| totalCost := totalCost';
               totalNutrients := existingNutrientFacts t;
               store := memory t |})
    end.

(** [function summarizeRecipe(recipe)], run on the heap [h]: what it
    returns or throws, and the heap it leaves. *)
Definition summarizeRecipe (recipe : Recipe) : M heap RecipeSummary :=
  fun h =>
    match forEach summarizeLineItem (lineItems recipe)
            {| totalCost := zero; totalNutrients := empty; store := h |} with
    | (Throw e, st) => (Throw e, store st)
    | (Normal _, st) =>
        (Normal {| cheapestCost := totalCost st;
                   nutrientsAtCheapestCost := sortKeys (totalNutrients st) |},
         store st)
    end.

End Program.

(** ** Notions the properties are stated with *)

Section Notions.

Context `{Collaborators}.

(** The offers [findLowestCostProduct] considers, in the order in which
    its two loops meet them: products in catalog order and, within a
    product, its supplier products in order. *)
Definition offers (lineItem : RecipeLineItem) : list (Product * SupplierProduct) :=
  product ← GetProductsForIngredient (ingredient lineItem);
  pair product <$> supplierProducts product.

(** The real cost of one offer for a line item, as the loop body computes
    it. *)
Definition realCostOf (lineItem : RecipeLineItem) (supplierProduct : SupplierProduct) : outcome number :=
  (bind (call (GetCostPerBaseUnit supplierProduct))
        (calculateRealCost (unitOfMeasure lineItem)) tt).1.

(** The update of the running minimum by one offer of known cost. *)
Definition keepLowest (st : lowest) (offer : Product * number) : lowest :=
  if lt offer.2 (lowestCost st)
  then {| lowestCostProduct := Some offer.1; lowestCost := offer.2 |}
  else st.

(** The real costs of a list of offers, or the first exception met. *)
Fixpoint realCosts (lineItem : RecipeLineItem) (offs : list (Product * SupplierProduct))
    : outcome (list (Product * number)) :=
  match offs with
  | [] => Normal []
  | (product, supplierProduct) :: offs' =>
      match realCostOf lineItem supplierProduct with
      | Throw e => Throw e
      | Normal c =>
          match realCosts lineItem offs' with
          | Throw e => Throw e
          | Normal cs => Normal ((product, c) :: cs)
          end
      end
  end.

(** What a reader of the heap sees of a fact: its name and the unit of
    measure its [quantityAmount] holds. *)
Definition observe (h : heap) (fact : NutrientFact) : string * option UnitOfMeasure :=
  (nutrientName fact, h !! quantityAmount fact).

(** What a reader sees of a dictionary of facts: [Object.keys] in order,
    each with the fact stored under it. *)
Definition entries (h : heap) (o : jsobject NutrientFact) : list (string * option (string * option UnitOfMeasure)) :=
  (fun k => (k, observe h <$> get k o)) <$> own_keys o.

(** What a caller sees of a call of [summarizeRecipe]: the exception, or
    the cost and the entries of the nutrient dictionary. *)
Definition observed (r : outcome RecipeSummary * heap)
    : outcome (number * list (string * option (string * option UnitOfMeasure))) :=
  match r.1 with
  | Throw e => Throw e
  | Normal s => Normal (cheapestCost s, entries r.2 (nutrientsAtCheapestCost s))
  end.

(** The amount stored for a nutrient name. *)
Definition totalOf (h : heap) (o : jsobject NutrientFact) (name : string) : option number :=
  fact ← get name o; uomAmount <$> h !! quantityAmount fact.

(** What a reader sees of every property of a dictionary of facts, in the
    order of creation. *)
Definition contents (h : heap) (o : jsobject NutrientFact)
    : jsobject (string * option UnitOfMeasure) :=
  prod_map id (observe h) <$> o.

(** [GetNutrientFactInBaseUnits] allocates: the fact it returns never holds
    the object its argument holds. *)
Definition allocatesResults : Prop :=
  forall name u name' q,
    GetNutrientFactInBaseUnits name u = Returns (name', q) -> q <> SameObject.

(** The nutrient facts of the catalog point into the heap [h]. *)
Definition wellFormed (h : heap) : Prop :=
  forall name product fact,
    product ∈ GetProductsForIngredient name ->
    fact ∈ nutrientFacts product ->
    quantityAmount fact < length h.

(** The merge of one fact on values: the fact is read from the heap [h0],
    converted, and added to (or stored as) the value kept under its name;
    a name that finds an inherited member has no amount to add to. *)
Definition mergeFact (h0 : heap) (fact : NutrientFact)
    (acc : jsobject (string * option UnitOfMeasure))
    : outcome (jsobject (string * option UnitOfMeasure)) :=
  match h0 !! quantityAmount fact with
  | None => Throw TypeError
  | Some u =>
      match GetNutrientFactInBaseUnits (nutrientName fact) u with
      | Raises message => Throw (CollaboratorError message)
      | Returns (name, q) =>
          let source := match q with SameObject => u | NewObject u' => u' end in
          match get (nutrientName fact) acc with
          | Some (name0, Some target) =>
              Normal (set (nutrientName fact)
                          (name0, Some (with_amount target
                                          (add (uomAmount target) (uomAmount source))))
                          acc)
          | Some (_, None) => Throw TypeError
          | None =>
              if inherited (nutrientName fact) then Throw TypeError
              else Normal (assign (nutrientName fact) (name, Some source) acc)
          end
      end
  end.

Fixpoint mergeFacts (h0 : heap) (facts : list NutrientFact)
    (acc : jsobject (string * option UnitOfMeasure))
    : outcome (jsobject (string * option UnitOfMeasure)) :=
  match facts with
  | [] => Normal acc
  | fact :: facts' =>
      match mergeFact h0 fact acc with
      | Throw e => Throw e
      | Normal acc' => mergeFacts h0 facts' acc'
      end
  end.

(** The summary on values: the cost and the merged values after the line
    items [items], from the cost [cost] and the values [acc]. *)
Fixpoint summarizeValues (h0 : heap) (items : list RecipeLineItem) (cost : number)
    (acc : jsobject (string * option UnitOfMeasure))
    : outcome (number * jsobject (string * option UnitOfMeasure)) :=
  match items with
  | [] => Normal (cost, acc)
  | lineItem :: items' =>
      match findLowestCostProduct lineItem with
      | Throw e => Throw e
      | Normal (product, c) =>
          match mergeFacts h0 (nutrientFacts product) acc with
          | Throw e => Throw e
          | Normal acc' => summarizeValues h0 items' (add cost c) acc'
          end
      end
  end.

(** [Object.keys] of a dictionary of values, each with its value. *)
Definition valueEntries {V} (o : jsobject V) : list (string * option V) :=
  (fun k => (k, get k o)) <$> own_keys o.

(** What a call of [summarizeRecipe] shows its caller, computed on values
    read from the heap [h0]. *)
Definition summaryOnValues (h0 : heap) (recipe : Recipe)
    : outcome (number * list (string * option (string * option UnitOfMeasure))) :=
  match summarizeValues h0 (lineItems recipe) zero empty with
  | Throw e => Throw e
  | Normal (cost, acc) => Normal (cost, valueEntries (sortKeys acc))
  end.

(** The facts of one name, in the order of the sequence. *)
Definition factsNamed (name : string) (facts : list NutrientFact) : list NutrientFact :=
  filter (fun fact => nutrientName fact = name) facts.

(** The amount of a fact of the heap [h0] once converted. *)
Definition baseAmount (h0 : heap) (fact : NutrientFact) : option number :=
  u ← h0 !! quantityAmount fact;
  match GetNutrientFactInBaseUnits (nutrientName fact) u with
  | Returns (_, SameObject) => Some (uomAmount u)
  | Returns (_, NewObject u') => Some (uomAmount u')
  | Raises _ => None
  end.

Definition baseAmounts (h0 : heap) (name : string) (facts : list NutrientFact) : list number :=
  omap (baseAmount h0) (factsNamed name facts).

(** [a1 + a2 + ... + an], added from the left; nothing for no amount. *)
Definition leftSum (amounts : list number) : option number :=
  match amounts with
  | [] => None
  | a :: amounts' => Some (fold_left add amounts' a)
  end.

Definition storedAmount (v : option (string * option UnitOfMeasure)) : option number :=
  '(_, u) ← v; uomAmount <$> u.




(** The dictionary [aggregateNutrients] works on owns the objects its
    facts point to: they were allocated after the heap [h0], which is
    still there, and no two facts share one. *)
Definition owned (h0 : heap) (st : totals) : Prop :=
  h0 `prefix_of` memory st
  /\ Forall (fun kf => length h0 <= quantityAmount kf.2 < length (memory st))
            (existingNutrientFacts st)
  /\ NoDup (quantityAmount ∘ snd <$> existingNutrientFacts st).

End Notions.

(** ** The script ([main.ts]) *)

Section Script.

Context `{Collaborators}.

(** The variable [recipeSummary] of the script, and the heap. *)
Record batch := {
  recipeSummary : jsobject RecipeSummary;
  objects : heap
}.

(** The body of [for (const recipe of recipeData)]:
    [recipeSummary[recipe.recipeName] = summarizeRecipe(recipe)], an
    assignment to an object that starts as [{}]. *)
Definition summarizeNext (recipe : Recipe) : M batch unit :=
  fun st =>
    match summarizeRecipe recipe (objects st) with
    | (Throw e, h) =>
        (Throw e, {| recipeSummary := recipeSummary st; objects := h |})
    | (Normal summary, h) =>
        (Normal tt,
         {| recipeSummary := assign (recipeName recipe) summary (recipeSummary st);
            objects := h |})
    end.

(** The script, from the recipes that [GetRecipes()] returned: the object
    it hands to [RunTest], or the exception it ends with, and the heap it
    leaves. *)
Definition main (recipeData : list Recipe) : M heap (jsobject RecipeSummary) :=
  fun h =>
    match forEach summarizeNext recipeData {| recipeSummary := empty; objects := h |} with
    | (Throw e, st) => (Throw e, objects st)
    | (Normal _, st) => (Normal (recipeSummary st), objects st)
    end.

End Script.

(** ** Notions for the order of creation *)

(** The names of [names] that are not among [seen], each once, in the
    order in which they occur first. *)
Fixpoint firstOccurrences (seen names : list string) : list string :=
  match names with
  | [] => []
  | name :: names' =>
      if decide (name ∈ seen) then firstOccurrences seen names'
      else name :: firstOccurrences (name :: seen) names'
  end.

(** ** Notions for the sign of a number *)

(** [x] is a number of sign [s]: not [NaN]. *)
Definition signed (s : bool) (x : number) : Prop :=
  match x with
  | S754_zero s' | S754_infinity s' | S754_finite s' _ _ => s' = s
  | S754_nan => False
  end.

(** ** Sample data *)

Module Sample.

Definition grams (amount : number) : UnitOfMeasure :=
  {| uomType := "mass"; uomName := "grams"; uomAmount := amount |}.

Definition offer (price amount : number) : SupplierProduct :=
  {| supplierPrice := price; supplierProductUoM := grams amount |}.

Definition item (name : string) (amount : Z) : RecipeLineItem :=
  {| ingredient := name; unitOfMeasure := grams (of_Z amount) |}.

(** Conversions for data that is in base units already. *)
Definition fresh (name : string) (u : UnitOfMeasure) : external (string * converted) :=
  Returns (name, NewObject u).

Definition sharing (name : string) (u : UnitOfMeasure) : external (string * converted) :=
  Returns (name, SameObject).

(** A set of collaborators over a catalog: the price of an offer per unit
    it buys, and every unit its own base unit. *)
Definition collaborators (catalog : string -> list Product)
    (inBaseUnits : string -> UnitOfMeasure -> external (string * converted)) : Collaborators :=
  {| GetProductsForIngredient := catalog;
     GetCostPerBaseUnit sp :=
       Returns (div (supplierPrice sp) (uomAmount (supplierProductUoM sp)));
     GetBaseUoM type :=
       Returns {| uomType := type; uomName := "grams"; uomAmount := of_Z 1 |};
     ConvertUnits u name type :=
       Returns {| uomType := type; uomName := name; uomAmount := uomAmount u |};
     GetNutrientFactInBaseUnits := inBaseUnits |}.

(** The largest power of two among the numbers: 2^1023. *)
Definition huge : number := S754_finite false 4503599627370496 971.

(** Two products for one ingredient.  Their facts point to the heap
    [pantry]. *)
Definition pantry : heap := [grams (of_Z 5); grams (of_Z 10)].

Definition productA (price : number) : Product :=
  {| productName := "A";
     supplierProducts := [offer price (of_Z 1)];
     nutrientFacts := [{| nutrientName := "Protein"; quantityAmount := 0 |}] |}.

Definition productB (price : number) : Product :=
  {| productName := "B";
     supplierProducts := [offer price (of_Z 1)];
     nutrientFacts := [{| nutrientName := "Protein"; quantityAmount := 1 |}] |}.

(** Ingredient ["flour"] is sold as A at [a] and as B at [b] per gram;
    ingredient ["salt"] is not sold. *)
Definition shop (a b : number) (name : string) : list Product :=
  if String.eqb name "flour" then [productA a; productB b] else [].

(** A product whose only offer buys nothing for nothing. *)
Definition productVoid : Product :=
  {| productName := "void";
     supplierProducts := [offer zero zero];
     nutrientFacts := [] |}.

Definition shopWithVoid (name : string) : list Product :=
  [productVoid; productB (of_Z 5)].

(** Ingredient ["flour"] is sold as A at 3 and ingredient ["milk"] as B at
    2 per gram. *)
Definition grocery (name : string) : list Product :=
  if String.eqb name "flour" then [productA (of_Z 3)]
  else if String.eqb name "milk" then [productB (of_Z 2)]
  else [].

Definition cake : Recipe :=
  {| recipeName := "cake"; lineItems := [item "flour" 2; item "milk" 1] |}.

Definition dough : Recipe :=
  {| recipeName := "dough"; lineItems := [item "flour" 2] |}.

Definition brine : Recipe :=
  {| recipeName := "brine"; lineItems := [item "flour" 2; item "salt" 1] |}.



(** A fact named like a member every object inherits. *)
Definition member (l : loc) : NutrientFact :=
  {| nutrientName := "constructor"; quantityAmount := l |}.

(** A product whose nutrients are named by their numbers in a table. *)
Definition productN : Product :=
  {| productName := "N";
     supplierProducts := [offer (of_Z 1) (of_Z 1)];
     nutrientFacts := [{| nutrientName := "10"; quantityAmount := 0 |};
                       {| nutrientName := "9"; quantityAmount := 1 |}] |}.

Definition numbered (name : string) : list Product := [productN].

(** Three facts of one name, and the same three in another order. *)
Definition larder : heap :=
  [grams (of_Z 9007199254740992); grams (of_Z 1); grams (of_Z 1)].

Definition shelf : heap := [grams (of_Z 5); grams (of_Z 10); grams (of_Z 1)].

Definition twins : heap := [grams (of_Z 5); grams (of_Z 5)].

Definition protein (l : loc) : NutrientFact :=
  {| nutrientName := "Protein"; quantityAmount := l |}.

Definition fat (l : loc) : NutrientFact :=
  {| nutrientName := "Fat"; quantityAmount := l |}.

(** The dictionary [aggregateNutrients] is handed first. *)
Definition start (h : heap) : totals :=
  {| existingNutrientFacts := empty; memory := h |}.

End Sample.

(** ** Sample data for the script *)

Module Menu.

Import Sample.

(** A second recipe of the name ["dough"]. *)
Definition richDough : Recipe :=
  {| recipeName := "dough"; lineItems := [item "milk" 3] |}.

Definition menu : list Recipe := [dough; cake; richDough].

(** Salt is not sold by the grocery: [brine] has no summary. *)
Definition spoiled : list Recipe := [dough; brine; cake].

Definition letters : jsobject nat := [("b", 1); ("a", 2)].

(** An object with an own property ["__proto__"], as [JSON.parse] makes
    them. *)
Definition lettersProto : jsobject nat := [("b", 1); ("__proto__", 3); ("a", 2)].

(** A recipe named like the accessor of the prototype. *)
Definition hidden : Recipe :=
  {| recipeName := "__proto__"; lineItems := [item "flour" 1] |}.

Definition carte : list Recipe := [dough; hidden; cake; richDough].

(** A product with a nutrient named ["constructor"], the only one sold. *)
Definition productC : Product :=
  {| productName := "C";
     supplierProducts := [offer (of_Z 1) (of_Z 1)];
     nutrientFacts := [member 0] |}.

Definition deli (name : string) : list Product := [productC].

Definition snack : Recipe :=
  {| recipeName := "snack"; lineItems := [item "ham" 1] |}.

End Menu.

(** * Properties *)

(** ** The order on numbers *)

Module NumberFacts.

Ltac by_kind x := destruct x as [[]|[]| |[] ? ?].

Ltac order_cases :=
  repeat match goal with
         | |- context [Z.compare ?a ?b] => destruct (Z.compare_spec a b)
         | |- context [Pos.compare_cont Eq ?a ?b] =>
             change (Pos.compare_cont Eq a b) with (Pos.compare a b);
             destruct (Pos.compare_spec a b)
         end;
  simpl; try congruence; try lia.

Ltac order3 x y z :=
  unfold le, lt, SFleb, SFltb, SFcompare;
  by_kind x; by_kind y; try (simpl; congruence);
  by_kind z; try (simpl; congruence); order_cases.

Ltac order2 x y :=
  unfold le, lt, SFleb, SFltb, SFcompare;
  by_kind x; by_kind y; try (simpl; congruence); order_cases.

Lemma lt_trans x y z : lt x y = true -> lt y z = true -> lt x z = true.
Proof. order3 x y z. Qed.

Lemma le_lt_trans x y z : le x y = true -> lt y z = true -> lt x z = true.
Proof. order3 x y z. Qed.

Lemma lt_le_false x y : lt x y = true -> le y x = false.
Proof. order2 x y. Qed.

Lemma lt_not_nan x y : lt x y = true -> is_nan x = false /\ is_nan y = false.
Proof. by_kind x; by_kind y; simpl; try done. Qed.

Lemma not_lt_le x y :
  lt x y = false -> is_nan x = false -> is_nan y = false -> le y x = true.
Proof. order2 x y. Qed.

Lemma not_le_le x y :
  le x y = false -> is_nan x = false -> is_nan y = false -> le y x = true.
Proof. order2 x y. Qed.

Lemma le_refl x : is_nan x = false -> le x x = true.
Proof.
  unfold le, SFleb, SFcompare.
  by_kind x; try (simpl; congruence); order_cases.
Qed.

Lemma lt_Infinity_not_nan x : lt x Infinity = true -> is_nan x = false.
Proof. intros Hx. by apply lt_not_nan in Hx as [? _]. Qed.

(** A comparison with [NaN] is false. *)
Lemma le_nan_r x : le x NaN = false.
Proof. by by_kind x. Qed.

End NumberFacts.

(** ** Loops *)

Section Loops.

Context {S A : Type}.

Lemma forEach_app (body : A -> M S unit) (xs ys : list A) (s : S) :
  forEach body (xs ++ ys) s =
  match forEach body xs s with
  | (Normal _, s') => forEach body ys s'
  | (Throw e, s') => (Throw e, s')
  end.
Proof.
  revert s. induction xs as [|x xs IH]; intros s; simpl; [done|].
  unfold bind. destruct (body x s) as [[[]|e] s']; [apply IH | done].
Qed.

End Loops.

Section NestedLoops.

Context {S A B : Type}.

(** A loop nested in a loop is one loop over the pairs. *)
Lemma forEach_nested (inner : A -> list B) (body : A -> B -> M S unit) (xs : list A) (s : S) :
  forEach (fun x => forEach (body x) (inner x)) xs s =
  forEach (fun p => body p.1 p.2) (x ← xs; pair x <$> inner x) s.
Proof.
  revert s. induction xs as [|x xs IH]; intros s; [done|].
  rewrite bind_cons, forEach_app. simpl. unfold bind at 1.
  assert (Hin : forall l s0, forEach (fun p : A * B => body p.1 p.2) (pair x <$> l) s0
                             = forEach (body x) l s0).
  { induction l as [|b l IHl]; intros s0; simpl; [done|].
    unfold bind. destruct (body x b s0) as [[[]|e] s']; [apply IHl | done]. }
  rewrite Hin. destruct (forEach (body x) (inner x) s) as [[[]|e] s']; [apply IH | done].
Qed.

End NestedLoops.

(** ** The cheapest offer *)

Section LowestCost.

Context `{Collaborators}.

(** [calculateRealCost] neither reads nor writes the state. *)
Lemma calculateRealCost_pure {S} (u : UnitOfMeasure) (b : number) (s : S) :
  calculateRealCost u b s = ((calculateRealCost u b tt).1, s).
Proof.
  unfold calculateRealCost, bind, call, ret, throw.
  destruct (GetBaseUoM (uomType u)) as [base|m]; simpl; [|done].
  by destruct (ConvertUnits u (uomName base) (uomType base)).
Qed.

Lemma considerOffer_spec lineItem product supplierProduct st :
  considerOffer lineItem product supplierProduct st =
  match realCostOf lineItem supplierProduct with
  | Normal c => (Normal tt, keepLowest st (product, c))
  | Throw e => (Throw e, st)
  end.
Proof.
  unfold considerOffer, realCostOf, keepLowest, bind, call, ret, throw, read, write.
  destruct (GetCostPerBaseUnit supplierProduct) as [baseCost|m]; simpl; [|done].
  rewrite (calculateRealCost_pure _ _ st).
  destruct (calculateRealCost _ _ tt).1 as [c|e]; simpl; [|done].
  by destruct (lt c (lowestCost st)).
Qed.

Lemma scan_spec lineItem offs st :
  match realCosts lineItem offs with
  | Normal cs =>
      forEach (fun o => considerOffer lineItem o.1 o.2) offs st
      = (Normal tt, fold_left keepLowest cs st)
  | Throw e =>
      (forEach (fun o => considerOffer lineItem o.1 o.2) offs st).1 = Throw e
  end.
Proof.
  revert st. induction offs as [|[p sp] offs IH]; intros st; simpl; [done|].
  unfold bind. rewrite considerOffer_spec.
  destruct (realCostOf lineItem sp) as [c|e]; simpl; [|done].
  specialize (IH (keepLowest st (p, c))).
  destruct (realCosts lineItem offs) as [cs|e]; simpl; done.
Qed.

(** [findLowestCostProduct] is a scan for the minimum over the real costs
    of the offers. *)
Lemma findLowestCostProduct_spec lineItem :
  findLowestCostProduct lineItem =
  match realCosts lineItem (offers lineItem) with
  | Throw e => Throw e
  | Normal cs =>
      let st := fold_left keepLowest cs {| lowestCostProduct := None; lowestCost := Infinity |} in
      match lowestCostProduct st with
      | None => Throw NoCandidatesError
      | Some product => Normal (product, lowestCost st)
      end
  end.
Proof.
  unfold findLowestCostProduct. rewrite forEach_nested. fold (offers lineItem).
  pose proof (scan_spec lineItem (offers lineItem)
                {| lowestCostProduct := None; lowestCost := Infinity |}) as Hs.
  destruct (realCosts lineItem (offers lineItem)) as [cs|e].
  - by rewrite Hs.
  - destruct (forEach _ _ _) as [[[]|e'] st']; simpl in Hs; [done | congruence].
Qed.

End LowestCost.

Section LowestCostProperties.

Context `{Collaborators}.
Import NumberFacts.

(** The scan for the minimum either keeps the state it started from, or
    ends on the first of the cheapest offers. *)
Lemma keepLowest_scan (cs : list (Product * number)) (st : lowest) :
  (fold_left keepLowest cs st = st
   /\ Forall (fun o => lt o.2 (lowestCost st) = false) cs)
  \/ (exists before product cost after,
        cs = before ++ (product, cost) :: after
        /\ fold_left keepLowest cs st
           = {| lowestCostProduct := Some product; lowestCost := cost |}
        /\ lt cost (lowestCost st) = true
        /\ Forall (fun o => le o.2 cost = false) before
        /\ Forall (fun o => lt o.2 cost = false) after).
Proof.
  revert st. induction cs as [|[p c] cs IH]; intros st; simpl.
  { left. by split. }
  unfold keepLowest at 2 4. simpl.
  destruct (lt c (lowestCost st)) eqn:Hlt.
  - right.
    destruct (IH {| lowestCostProduct := Some p; lowestCost := c |})
      as [[Heq Hall]|(before & p' & c' & after & -> & Heq & Hlt' & Hb & Ha)]; simpl in *.
    + exists [], p, c, cs. by repeat split.
    + exists ((p, c) :: before), p', c', after. repeat split; try done.
      * eauto using lt_trans.
      * constructor; [|done]. simpl. by apply lt_le_false.
  - destruct (IH st)
      as [[Heq Hall]|(before & p' & c' & after & -> & Heq & Hlt' & Hb & Ha)].
    + left. split; [done|]. by constructor.
    + right. exists ((p, c) :: before), p', c', after. repeat split; try done.
      constructor; [|done]. simpl.
      destruct (le c c') eqn:Hle; [|done].
      by rewrite (le_lt_trans _ _ _ Hle Hlt') in Hlt.
Qed.

Lemma realCosts_Normal lineItem offs cs :
  realCosts lineItem offs = Normal cs <->
  Forall2 (fun o oc => oc.1 = o.1 /\ realCostOf lineItem o.2 = Normal oc.2) offs cs.
Proof.
  revert cs. induction offs as [|[p sp] offs IH]; intros cs; simpl.
  { split; [intros [= <-]; constructor | by inversion 1]. }
  destruct (realCostOf lineItem sp) as [c|e] eqn:Hc.
  - destruct (realCosts lineItem offs) as [cs'|e].
    + split.
      * intros [= <-]. constructor; [done | by apply IH].
      * inversion 1 as [|? [p' c'] ? cs'' [Hp Hc'] Hrest]; simplify_eq/=.
        apply IH in Hrest. congruence.
    + split; [done|].
      inversion 1 as [|? ? ? cs'' _ Hrest]; simplify_eq. by apply IH in Hrest.
  - split; [done|]. inversion 1 as [|? ? ? ? [_ ?]]; simplify_eq/=. congruence.
Qed.

(** Every cost of a successful scan is the real cost of the offer at the
    same place. *)
Lemma realCosts_split lineItem offs before product cost after :
  realCosts lineItem offs = Normal (before ++ (product, cost) :: after) ->
  exists offs1 sp offs2,
    offs = offs1 ++ (product, sp) :: offs2
    /\ realCostOf lineItem sp = Normal cost
    /\ realCosts lineItem offs1 = Normal before
    /\ realCosts lineItem offs2 = Normal after.
Proof.
  rewrite realCosts_Normal. intros Hall.
  apply Forall2_app_inv_r in Hall as (offs1 & rest & H1 & H2 & ->).
  inversion H2 as [|[p sp] ? offs2 ? [Hp Hc] H3]; simplify_eq/=.
  exists offs1, sp, offs2. by rewrite !realCosts_Normal.
Qed.

Lemma realCosts_Forall lineItem offs cs (P : number -> Prop) :
  realCosts lineItem offs = Normal cs ->
  Forall (fun oc => P oc.2) cs ->
  forall o c, o ∈ offs -> realCostOf lineItem o.2 = Normal c -> P c.
Proof.
  rewrite realCosts_Normal. intros Hall HP o c Ho Hc.
  induction Hall as [|o' oc offs cs [_ Hoc] _ IH]; [by apply elem_of_nil in Ho|].
  apply Forall_cons in HP as [HP1 HP2].
  apply elem_of_cons in Ho as [->|Ho]; [|by apply IH].
  rewrite Hc in Hoc. by simplify_eq.
Qed.

Lemma realCosts_all_Normal lineItem offs :
  (exists cs, realCosts lineItem offs = Normal cs) <->
  (forall o, o ∈ offs -> exists c, realCostOf lineItem o.2 = Normal c).
Proof.
  induction offs as [|[p sp] offs IH]; simpl.
  { split; [by intros _ o ?%elem_of_nil | eauto]. }
  split.
  - intros [cs Hcs] o Ho.
    destruct (realCostOf lineItem sp) as [c|] eqn:Hc; [|done].
    destruct (realCosts lineItem offs) as [cs'|] eqn:Hcs'; [|done].
    apply elem_of_cons in Ho as [->|Ho]; [eauto|].
    apply IH; eauto.
  - intros Hall. destruct (Hall (p, sp)) as [c Hc]; [left|]. simpl in Hc. rewrite Hc.
    destruct (proj2 IH) as [cs ->]; [|eauto].
    intros o Ho. apply Hall. by right.
Qed.

Lemma realCosts_transfer lineItem offs cs (P : number -> Prop) :
  realCosts lineItem offs = Normal cs ->
  (forall o c, o ∈ offs -> realCostOf lineItem o.2 = Normal c -> P c) ->
  Forall (fun oc => P oc.2) cs.
Proof.
  rewrite realCosts_Normal. intros Hall HP.
  induction Hall as [|o oc offs cs [_ Hoc] _ IH]; constructor.
  - apply (HP o); [left | done].
  - apply IH. intros o' c Ho'. apply HP. by right.
Qed.

(** Two ways to single out an element of a list single out the same one,
    or one lies before the other. *)
Lemma split_twice {A} (l1 l2 l1' l2' : list A) x x' :
  l1 ++ x :: l2 = l1' ++ x' :: l2' ->
  (l1 = l1' /\ x = x' /\ l2 = l2')
  \/ (x ∈ l1' /\ x' ∈ l2)
  \/ (x ∈ l2' /\ x' ∈ l1).
Proof.
  revert l1'. induction l1 as [|a l1 IH]; intros [|a' l1']; simpl; intros [= Hhd Htl].
  - by left.
  - subst. right. left. split; [left|]. apply elem_of_app. right. left.
  - subst. right. right. split; [|left]. apply elem_of_app. right. left.
  - subst a'. destruct (IH _ Htl) as [(-> & -> & ->)|[[? ?]|[? ?]]].
    + by left.
    + right. left. split; [by right | done].
    + right. right. split; [done | by right].
Qed.

(** An offer below [Infinity] that no earlier offer matches and no later
    offer beats is where the scan ends. *)
Lemma keepLowest_scan_unique (cs1 cs2 : list (Product * number)) product cost :
  lt cost Infinity = true ->
  Forall (fun o => le o.2 cost = false) cs1 ->
  Forall (fun o => lt o.2 cost = false) cs2 ->
  fold_left keepLowest (cs1 ++ (product, cost) :: cs2)
    {| lowestCostProduct := None; lowestCost := Infinity |}
  = {| lowestCostProduct := Some product; lowestCost := cost |}.
Proof.
  intros Hinf Hb Ha.
  destruct (keepLowest_scan (cs1 ++ (product, cost) :: cs2)
              {| lowestCostProduct := None; lowestCost := Infinity |})
    as [[_ Hnone]|(before & p & c & after & Hsplit & -> & Hlt & Hb' & Ha')].
  { apply Forall_app in Hnone as [_ [Hhere _]%Forall_cons]. simpl in *. congruence. }
  simpl in Hlt.
  pose proof (lt_Infinity_not_nan _ Hinf) as Hcost.
  pose proof (lt_Infinity_not_nan _ Hlt) as Hc.
  destruct (split_twice _ _ _ _ _ _ Hsplit) as [(_ & [= -> ->] & _)|[[Hin Hin']|[Hin Hin']]].
  - done.
  - apply (proj1 (Forall_forall _ _) Hb') in Hin.
    apply (proj1 (Forall_forall _ _) Ha) in Hin'. simpl in *.
    by rewrite (not_lt_le _ _ Hin' Hc Hcost) in Hin.
  - apply (proj1 (Forall_forall _ _) Ha') in Hin.
    apply (proj1 (Forall_forall _ _) Hb) in Hin'. simpl in *.
    by rewrite (not_lt_le _ _ Hin Hcost Hc) in Hin'.
Qed.

End LowestCostProperties.

Section LowestCostTheorems.

Context `{Collaborators}.
Import NumberFacts.

(** What a returned pair says about the offers: the winner is the first
    of the cheapest offers. *)
Lemma findLowestCostProduct_Normal lineItem product cost :
  findLowestCostProduct lineItem = Normal (product, cost) ->
  exists before supplierProduct after,
    offers lineItem = before ++ (product, supplierProduct) :: after
    /\ realCostOf lineItem supplierProduct = Normal cost
    /\ lt cost Infinity = true
    /\ (forall o, o ∈ offers lineItem -> exists c, realCostOf lineItem o.2 = Normal c)
    /\ (forall o c, o ∈ before -> realCostOf lineItem o.2 = Normal c -> le c cost = false)
    /\ (forall o c, o ∈ after -> realCostOf lineItem o.2 = Normal c -> lt c cost = false).
Proof.
  rewrite findLowestCostProduct_spec.
  destruct (realCosts lineItem (offers lineItem)) as [cs|e] eqn:Hcs; [|done].
  simpl.
  destruct (keepLowest_scan cs {| lowestCostProduct := None; lowestCost := Infinity |})
    as [[-> _]|(before & p & c & after & -> & -> & Hlt & Hb & Ha)]; [done|].
  simpl. intros [= -> ->].
  destruct (realCosts_split _ _ _ _ _ _ Hcs) as (offs1 & sp & offs2 & Hoffs & Hsp & H1 & H2).
  exists offs1, sp, offs2. repeat split; try done.
  - apply realCosts_all_Normal. eauto.
  - intros o c' Ho Hc. by apply (realCosts_Forall _ _ _ (fun c => le c cost = false) H1 Hb o).
  - intros o c' Ho Hc. by apply (realCosts_Forall _ _ _ (fun c => lt c cost = false) H2 Ha o).
Qed.

(** C7: [findLowestCostProduct] keeps the running minimum with a strict
    [<], so the product it returns owns the first offer, in the order
    products-then-supplier-products, that achieves the lowest real cost:
    it returns the product and the cost of an offer exactly when every
    real cost can be computed, that cost is below [Infinity], no offer met
    before it costs as little ([c <= cost] fails for each), and no offer
    met after it costs strictly less. *)
Theorem first_cheapest_offer_wins lineItem product cost :
  findLowestCostProduct lineItem = Normal (product, cost) <->
  (forall o, o ∈ offers lineItem -> exists c, realCostOf lineItem o.2 = Normal c)
  /\ lt cost Infinity = true
  /\ exists before supplierProduct after,
       offers lineItem = before ++ (product, supplierProduct) :: after
       /\ realCostOf lineItem supplierProduct = Normal cost
       /\ (forall o c, o ∈ before -> realCostOf lineItem o.2 = Normal c -> le c cost = false)
       /\ (forall o c, o ∈ after -> realCostOf lineItem o.2 = Normal c -> lt c cost = false).
Proof.
  split.
  - intros Hfind.
    destruct (findLowestCostProduct_Normal _ _ _ Hfind)
      as (before & sp & after & Hoffs & Hsp & Hinf & Hall & Hb & Ha).
    split; [done|]. split; [done|]. exists before, sp, after. by repeat split.
  - intros (Hall & Hinf & before & sp & after & Hoffs & Hsp & Hb & Ha).
    apply realCosts_all_Normal in Hall as [cs Hcs].
    rewrite findLowestCostProduct_spec, Hcs.
    pose proof Hcs as Hcs'. rewrite Hoffs in Hcs'.
    apply realCosts_Normal in Hcs'.
    apply Forall2_app_inv_l in Hcs' as (cs1 & rest & H1 & H2 & ->).
    inversion H2 as [|? [p c] ? cs2 [Hp Hc] H3]; simplify_eq/=.
    rewrite Hsp in Hc. injection Hc as <-.
    apply realCosts_Normal in H1, H3.
    rewrite (keepLowest_scan_unique cs1 cs2 product cost Hinf); [done | |].
    + by apply (realCosts_transfer _ _ _ (fun c => le c cost = false) H1).
    + by apply (realCosts_transfer _ _ _ (fun c => lt c cost = false) H3).
Qed.

(** C2, amended: whenever [findLowestCostProduct] returns, the cost it
    returns is [<=] the real cost of every offer considered whose real
    cost is a number other than [NaN]; and it does return whenever the
    real cost of every offer can be computed and at least one of them is
    below [Infinity]. *)
Theorem lowest_cost_is_lower_bound lineItem :
  (forall product cost,
      findLowestCostProduct lineItem = Normal (product, cost) ->
      forall o, o ∈ offers lineItem ->
        exists c, realCostOf lineItem o.2 = Normal c
                  /\ (is_nan c = false -> le cost c = true))
  /\ ((forall o, o ∈ offers lineItem -> exists c, realCostOf lineItem o.2 = Normal c) ->
      (exists o c, o ∈ offers lineItem
                   /\ realCostOf lineItem o.2 = Normal c /\ lt c Infinity = true) ->
      exists product cost, findLowestCostProduct lineItem = Normal (product, cost)).
Proof.
  split.
  - intros product cost Hfind o Ho.
    destruct (findLowestCostProduct_Normal _ _ _ Hfind)
      as (before & sp & after & Hoffs & Hsp & Hinf & Hall & Hb & Ha).
    destruct (Hall o Ho) as [c Hc]. exists c. split; [done|]. intros Hnan.
    pose proof (lt_Infinity_not_nan _ Hinf) as Hcost.
    rewrite Hoffs in Ho.
    apply elem_of_app in Ho as [Ho|Ho]; [|apply elem_of_cons in Ho as [->|Ho]].
    + apply not_le_le; eauto.
    + simpl in Hc. rewrite Hsp in Hc. injection Hc as <-. by apply le_refl.
    + apply not_lt_le; eauto.
  - intros Hall (o & c & Ho & Hc & Hlt).
    apply realCosts_all_Normal in Hall as [cs Hcs].
    rewrite findLowestCostProduct_spec, Hcs. simpl.
    destruct (keepLowest_scan cs {| lowestCostProduct := None; lowestCost := Infinity |})
      as [[_ Hnone]|(before & p & c' & after & -> & -> & _)]; [|simpl; eauto].
    simpl in Hnone.
    pose proof (realCosts_Forall _ _ _ (fun c => lt c Infinity = false) Hcs Hnone o c Ho Hc).
    congruence.
Qed.

(** The scan ends without a product exactly when no offer costs less than
    [Infinity]. *)
Lemma findLowestCostProduct_NoCandidates lineItem :
  findLowestCostProduct lineItem = Throw NoCandidatesError <->
  (forall o, o ∈ offers lineItem ->
     exists c, realCostOf lineItem o.2 = Normal c /\ lt c Infinity = false).
Proof.
  rewrite findLowestCostProduct_spec. split.
  - destruct (realCosts lineItem (offers lineItem)) as [cs|e] eqn:Hcs.
    + simpl.
      destruct (keepLowest_scan cs {| lowestCostProduct := None; lowestCost := Infinity |})
        as [[-> Hnone]|(before & p & c' & after & -> & -> & _)]; [|done].
      intros _ o Ho.
      destruct (proj1 (realCosts_all_Normal lineItem (offers lineItem))
                  (ex_intro _ cs Hcs) o Ho) as [c Hc].
      exists c. split; [done|].
      by apply (realCosts_Forall _ _ _ (fun c => lt c Infinity = false) Hcs Hnone o).
    + intros [= ->]. exfalso. clear -Hcs.
      induction (offers lineItem) as [|[p sp] offs IH]; simpl in Hcs; [done|].
      unfold realCostOf, bind, call, ret, throw in Hcs.
      destruct (GetCostPerBaseUnit sp); simpl in Hcs; [|done].
      rewrite (calculateRealCost_pure _ _ tt) in Hcs.
      unfold calculateRealCost, bind, call, ret, throw in Hcs. simpl in Hcs.
      destruct (GetBaseUoM _); simpl in Hcs; [|done].
      destruct (ConvertUnits _ _ _); simpl in Hcs; [|done].
      destruct (realCosts lineItem offs); [done | by apply IH].
  - intros Hall.
    destruct (proj2 (realCosts_all_Normal lineItem (offers lineItem))) as [cs Hcs].
    { intros o Ho. destruct (Hall o Ho) as (c & ? & _). eauto. }
    rewrite Hcs. simpl.
    destruct (keepLowest_scan cs {| lowestCostProduct := None; lowestCost := Infinity |})
      as [[-> _]|(before & p & c' & after & -> & _ & Hlt & _)]; [done|].
    exfalso. simpl in Hlt.
    destruct (realCosts_split _ _ _ _ _ _ Hcs) as (offs1 & sp & offs2 & Hoffs & Hsp & _).
    destruct (Hall (p, sp)) as (c & Hc & Hc').
    { rewrite Hoffs. apply elem_of_app. right. left. }
    simpl in Hc. congruence.
Qed.

End LowestCostTheorems.

(** ** Dictionaries *)

Section JsObjectFacts.

Context {V : Type}.
Implicit Types (o : jsobject V) (k : string) (v : V).

Lemma get_set_eq k v o : get k (set k v o) = Some v.
Proof.
  induction o as [|[k' v'] o IH]; simpl.
  - by rewrite String.eqb_refl.
  - destruct (String.eqb_spec k k') as [->|Hne]; simpl.
    + by rewrite String.eqb_refl.
    + by destruct (String.eqb_spec k k').
Qed.

Lemma get_set_ne k k' v o : k <> k' -> get k' (set k v o) = get k' o.
Proof.
  intros Hne. induction o as [|[k0 v0] o IH]; simpl.
  - by destruct (String.eqb_spec k' k) as [->|].
  - destruct (String.eqb_spec k k0) as [->|Hne0]; simpl.
    + by destruct (String.eqb_spec k' k0) as [->|].
    + by rewrite IH.
Qed.

Lemma get_None k o : get k o = None <-> k ∉ o.*1.
Proof.
  induction o as [|[k' v'] o IH]; simpl.
  - split; [intros _; apply not_elem_of_nil | done].
  - rewrite not_elem_of_cons. destruct (String.eqb_spec k k') as [->|Hne].
    + split; [done | by intros [[] _]].
    + rewrite IH. tauto.
Qed.

Lemma get_Some_elem k v o : get k o = Some v -> (k, v) ∈ o.
Proof.
  induction o as [|[k' v'] o IH]; simpl; [done|].
  destruct (String.eqb_spec k k') as [->|Hne].
  - intros [= ->]. left.
  - intros Hget. right. by apply IH.
Qed.

Lemma get_elem_NoDup k v o : NoDup o.*1 -> (k, v) ∈ o -> get k o = Some v.
Proof.
  induction o as [|[k' v'] o IH]; simpl; [by intros _ ?%elem_of_nil|].
  rewrite NoDup_cons. intros [Hk' Hnd] [Heq|Hin]%elem_of_cons.
  - injection Heq as -> ->. by rewrite String.eqb_refl.
  - destruct (String.eqb_spec k k') as [->|Hne]; [|by apply IH].
    destruct Hk'. apply list_elem_of_fmap. by exists (k', v).
Qed.

(** A new key is created last. *)
Lemma set_new k v o : get k o = None -> set k v o = o ++ [(k, v)].
Proof.
  induction o as [|[k' v'] o IH]; simpl; [done|].
  destruct (String.eqb_spec k k') as [->|Hne]; [done|].
  intros Hget. by rewrite IH.
Qed.

(** An assignment to an existing key leaves the keys where they are. *)
Lemma set_keys_old k v v' o : get k o = Some v' -> (set k v o).*1 = o.*1.
Proof.
  induction o as [|[k0 v0] o IH]; cbn [set get]; [done|].
  destruct (String.eqb_spec k k0) as [->|Hne]; [done|].
  intros Hget. rewrite !fmap_cons. by rewrite IH.
Qed.

Lemma set_keys_new k v o : get k o = None -> (set k v o).*1 = o.*1 ++ [k].
Proof. intros Hget. by rewrite set_new, fmap_app. Qed.

Lemma set_keys_NoDup k v o : NoDup o.*1 -> NoDup (set k v o).*1.
Proof.
  intros Hnd. destruct (get k o) as [v'|] eqn:Hget.
  - by rewrite (set_keys_old _ _ _ _ Hget).
  - rewrite (set_keys_new _ _ _ Hget). apply NoDup_app. split; [done|].
    split; [|apply NoDup_singleton].
    intros k' Hk' ->%list_elem_of_singleton. by apply get_None in Hget.
Qed.

Lemma set_elem k v o kv : kv ∈ set k v o -> kv = (k, v) \/ kv ∈ o.
Proof.
  induction o as [|[k0 v0] o IH]; simpl.
  - intros ->%list_elem_of_singleton. by left.
  - destruct (String.eqb_spec k k0) as [->|Hne].
    + intros [->|Hin]%elem_of_cons; [by left | right; by right].
    + intros [->|Hin]%elem_of_cons; [right; left|].
      destruct (IH Hin); [by left | right; by right].
Qed.

Lemma inherited_proto : inherited "__proto__" = true.
Proof. reflexivity. Qed.

(** But for ["__proto__"], an assignment writes an own property. *)
Lemma assign_set k v o : k <> "__proto__" -> assign k v o = set k v o.
Proof.
  intros Hk. unfold assign. destruct (get k o); [done|].
  by destruct (String.eqb_spec k "__proto__").
Qed.

Lemma assign_not_inherited k v o : inherited k = false -> assign k v o = set k v o.
Proof.
  intros Hk. apply assign_set. intros ->. by rewrite inherited_proto in Hk.
Qed.

Lemma assign_proto v o : get "__proto__" o = None -> assign "__proto__" v o = o.
Proof. intros Hget. unfold assign. by rewrite Hget. Qed.

End JsObjectFacts.

Section JsObjectMaps.

Context {V W : Type} (g : V -> W).
Implicit Types (o : jsobject V) (k : string) (v : V).

(** The same dictionary with [g] applied to every value. *)
Lemma get_values k o : get k (prod_map id g <$> o) = g <$> get k o.
Proof.
  induction o as [|[k' v'] o IH]; simpl; [done|].
  by destruct (String.eqb k k').
Qed.

Lemma set_values k v o :
  set k (g v) (prod_map id g <$> o) = prod_map id g <$> set k v o.
Proof.
  induction o as [|[k' v'] o IH]; simpl; [done|].
  destruct (String.eqb k k'); simpl; [done|]. f_equal. apply IH.
Qed.

Lemma assign_values k v o :
  assign k (g v) (prod_map id g <$> o) = prod_map id g <$> assign k v o.
Proof.
  unfold assign. rewrite get_values.
  destruct (get k o); simpl; [apply set_values|].
  destruct (String.eqb k "__proto__"); [done|apply set_values].
Qed.

Lemma keys_values o : (prod_map id g <$> o).*1 = o.*1.
Proof. rewrite <-list_fmap_compose. by apply list_fmap_ext; intros ? []. Qed.

Lemma own_keys_values o : own_keys (prod_map id g <$> o) = own_keys o.
Proof. unfold own_keys. by rewrite keys_values. Qed.

Lemma sortKeys_values o : sortKeys (prod_map id g <$> o) = prod_map id g <$> sortKeys o.
Proof.
  unfold sortKeys. rewrite own_keys_values.
  change (@empty W) with (prod_map id g <$> @empty V).
  generalize (@empty V).
  induction (sort (own_keys o)) as [|k ks IH]; intros acc; [done|].
  cbn [fold_left]. rewrite get_values. destruct (get k o) as [v|].
  - change (g <$> Some v) with (Some (g v)). cbv iota. rewrite assign_values. apply IH.
  - apply IH.
Qed.

End JsObjectMaps.

(** ** The heap *)

Section Heap.

Implicit Types (h : heap) (o : jsobject NutrientFact).

Lemma prefix_insert h0 h l v :
  h0 `prefix_of` h -> length h0 <= l -> h0 `prefix_of` <[l := v]> h.
Proof. intros [k ->] Hl. rewrite insert_app_r_alt by done. by eexists. Qed.

Lemma contents_cons h key fact o :
  contents h ((key, fact) :: o) = (key, observe h fact) :: contents h o.
Proof. done. Qed.

(** Allocation changes nothing a dictionary can see. *)
Lemma contents_alloc h k o :
  Forall (fun kf => quantityAmount kf.2 < length h) o ->
  contents (h ++ k) o = contents h o.
Proof.
  induction 1 as [|[key f] o Hf _ IH]; [done|].
  rewrite !contents_cons, IH. unfold observe. simpl in Hf.
  by rewrite lookup_app_l.
Qed.

Lemma contents_untouched h l v o :
  Forall (fun kf => quantityAmount kf.2 <> l) o ->
  contents (<[l := v]> h) o = contents h o.
Proof.
  induction 1 as [|[key f] o Hf _ IH]; [done|].
  rewrite !contents_cons, IH. unfold observe. simpl in Hf.
  by rewrite list_lookup_insert_ne.
Qed.

(** A write to the object of one fact is seen under that fact's key only. *)
Lemma contents_update h name e t v o :
  NoDup (quantityAmount ∘ snd <$> o) ->
  get name o = Some e ->
  h !! quantityAmount e = Some t ->
  contents (<[quantityAmount e := v]> h) o
  = set name (nutrientName e, Some v) (contents h o).
Proof.
  intros Hnd Hget Ht. apply lookup_lt_Some in Ht.
  induction o as [|[key f] o IH]; [done|].
  rewrite fmap_cons in Hnd. apply NoDup_cons in Hnd as [Hf Hnd].
  rewrite !contents_cons. cbn [get set] in *.
  destruct (String.eqb_spec name key) as [->|Hne].
  - injection Hget as ->. unfold observe at 1.
    rewrite list_lookup_insert_eq by done. f_equal.
    apply contents_untouched. apply Forall_forall. intros kf Hkf Heq.
    apply Hf. apply list_elem_of_fmap. by exists kf.
  - rewrite IH by done. f_equal. unfold observe.
    rewrite list_lookup_insert_ne; [done|]. intros Heq.
    apply Hf. apply list_elem_of_fmap. exists (name, e). split; [done|].
    by apply get_Some_elem.
Qed.

Lemma contents_set h name b o :
  contents h (set name b o) = set name (observe h b) (contents h o).
Proof. unfold contents. by rewrite set_values. Qed.

Lemma contents_sortKeys h o : contents h (sortKeys o) = sortKeys (contents h o).
Proof. unfold contents. by rewrite sortKeys_values. Qed.

Lemma get_contents h name o :
  get name (contents h o) = observe h <$> get name o.
Proof. apply get_values. Qed.

End Heap.

(** ** The merge refines the merge on values *)

Section Refinement.

Context `{Collaborators}.

Lemma owned_start h : owned h {| existingNutrientFacts := empty; memory := h |}.
Proof. repeat split; [done | constructor | constructor]. Qed.

(** One fact: when [GetNutrientFactInBaseUnits] allocates its results, the
    callback of [aggregateNutrients] does to the heap what [mergeFact] does
    to values, and writes to no object of the heap [h0]. *)
Lemma aggregateFact_refines h0 fact st r st' :
  allocatesResults ->
  owned h0 st ->
  quantityAmount fact < length h0 ->
  aggregateFact fact st = (r, st') ->
  owned h0 st'
  /\ match mergeFact h0 fact (contents (memory st) (existingNutrientFacts st)) with
     | Normal acc =>
         r = Normal tt /\ contents (memory st') (existingNutrientFacts st') = acc
     | Throw e => r = Throw e
     end.
Proof.
  intros Halloc (Hpre & Hlocs & Hnd) Hfact. destruct st as [o h]. simpl in *.
  destruct (lookup_lt_is_Some_2 _ _ Hfact) as [u Hu0].
  pose proof (prefix_lookup_Some _ _ _ _ Hu0 Hpre) as Hu.
  unfold aggregateFact, callGetNutrientFactInBaseUnits, mergeFact.
  unfold bind, read, write, ret, throw, call. simpl. rewrite Hu, Hu0.
  destruct (GetNutrientFactInBaseUnits (nutrientName fact) u) as [[name' q]|m] eqn:Hconv;
    simpl.
  2: { intros [= <- <-]. by repeat split. }
  destruct q as [|u']; [by destruct (Halloc _ _ _ _ Hconv)|]. simpl.
  rewrite get_contents.
  destruct (get (nutrientName fact) o) as [e|] eqn:Hget; simpl.
  - assert (length h0 <= quantityAmount e < length h) as [He0 He].
    { apply get_Some_elem in Hget. by apply (proj1 (Forall_forall _ _) Hlocs) in Hget. }
    destruct (lookup_lt_is_Some_2 _ _ He) as [t Ht].
    rewrite (lookup_app_l_Some _ _ _ _ Ht).
    rewrite (list_lookup_middle h [] u' (length h) eq_refl). rewrite Ht.
    intros [= <- <-]. simpl. repeat split.
    + apply prefix_insert; [by apply prefix_app_r | done].
    + eapply Forall_impl; [exact Hlocs|]. intros kf [? ?]. simpl.
      rewrite length_insert, length_app. simpl. lia.
    + done.
    + rewrite (contents_update _ (nutrientName fact) e t);
        [| done | done | by apply lookup_app_l_Some].
      f_equal. apply contents_alloc.
      eapply Forall_impl; [exact Hlocs|]. by intros kf [? ?].
  - pose proof (prefix_length _ _ Hpre) as Hlen.
    destruct (inherited (nutrientName fact)) eqn:Hinherited; simpl.
    { intros [= <- <-]. unfold owned. cbn [existingNutrientFacts memory].
      repeat split; [by apply prefix_app_r| |done].
      eapply Forall_impl; [exact Hlocs|]. intros kf [? ?]. simpl.
      rewrite length_app. simpl. lia. }
    rewrite !assign_not_inherited by done. intros [= <- <-].
    unfold owned. cbn [existingNutrientFacts memory]. repeat split.
    + by apply prefix_app_r.
    + rewrite (set_new _ _ _ Hget). apply Forall_app. split.
      * eapply Forall_impl; [exact Hlocs|]. intros kf [? ?]. simpl.
        rewrite length_app. simpl. lia.
      * apply Forall_singleton. simpl. rewrite length_app. simpl. lia.
    + rewrite (set_new _ _ _ Hget), fmap_app. apply NoDup_app. repeat split; [done| |].
      * intros l Hl ->%list_elem_of_singleton. simpl in Hl.
        apply list_elem_of_fmap in Hl as (kf & Heq & Hkf).
        apply (proj1 (Forall_forall _ _) Hlocs) in Hkf. simpl in Heq. lia.
      * apply NoDup_singleton.
    + rewrite contents_set. unfold observe at 1. simpl.
      rewrite (list_lookup_middle h [] u' (length h) eq_refl). f_equal.
      apply contents_alloc.
      eapply Forall_impl; [exact Hlocs|]. by intros kf [? ?].
Qed.

(** All the facts of one product. *)
Lemma aggregateNutrients_refines h0 facts st r st' :
  allocatesResults ->
  owned h0 st ->
  Forall (fun fact => quantityAmount fact < length h0) facts ->
  aggregateNutrients facts st = (r, st') ->
  owned h0 st'
  /\ match mergeFacts h0 facts (contents (memory st) (existingNutrientFacts st)) with
     | Normal acc =>
         r = Normal tt /\ contents (memory st') (existingNutrientFacts st') = acc
     | Throw e => r = Throw e
     end.
Proof.
  intros Halloc Hown Hfacts. revert st Hown. unfold aggregateNutrients.
  induction Hfacts as [|fact facts Hfact _ IH]; intros st Hown; cbn [forEach mergeFacts].
  { unfold ret. intros [= <- <-]. by split. }
  unfold bind at 1.
  destruct (aggregateFact fact st) as [r1 st1] eqn:Hstep.
  destruct (aggregateFact_refines _ _ _ _ _ Halloc Hown Hfact Hstep) as [Hown1 Hres].
  destruct (mergeFact h0 fact _) as [acc|e].
  - destruct Hres as [-> <-]. by apply IH.
  - subst r1. by intros [= <- <-].
Qed.

End Refinement.

(** ** The summary refines the summary on values *)

Section Summary.

Context `{Collaborators}.

Lemma winner_in_catalog lineItem product cost :
  findLowestCostProduct lineItem = Normal (product, cost) ->
  product ∈ GetProductsForIngredient (ingredient lineItem).
Proof.
  intros Hfind.
  destruct (findLowestCostProduct_Normal _ _ _ Hfind)
    as (before & sp & after & Hoffs & _).
  assert (Hin : (product, sp) ∈ offers lineItem).
  { rewrite Hoffs. apply elem_of_app. right. left. }
  unfold offers in Hin. apply list_elem_of_bind in Hin as (p & Hin & Hp).
  apply list_elem_of_fmap in Hin as (sp' & [= -> ->] & _). done.
Qed.

Lemma winner_wellFormed h lineItem product cost :
  wellFormed h ->
  findLowestCostProduct lineItem = Normal (product, cost) ->
  Forall (fun fact => quantityAmount fact < length h) (nutrientFacts product).
Proof.
  intros Hwf Hfind. apply Forall_forall. intros fact Hfact.
  eapply Hwf; [|done]. by eapply winner_in_catalog.
Qed.

Lemma entries_contents h o : entries h o = valueEntries (contents h o).
Proof.
  unfold entries, valueEntries, contents. rewrite own_keys_values.
  apply list_fmap_ext. intros _ k _. by rewrite get_values.
Qed.

(** The loop over the line items. *)
Lemma summarizeLineItems_refines h0 items st r st' :
  allocatesResults ->
  wellFormed h0 ->
  owned h0 {| existingNutrientFacts := totalNutrients st; memory := store st |} ->
  forEach summarizeLineItem items st = (r, st') ->
  owned h0 {| existingNutrientFacts := totalNutrients st'; memory := store st' |}
  /\ match summarizeValues h0 items (totalCost st) (contents (store st) (totalNutrients st)) with
     | Normal (cost, acc) =>
         r = Normal tt /\ totalCost st' = cost
         /\ contents (store st') (totalNutrients st') = acc
     | Throw e => r = Throw e
     end.
Proof.
  intros Halloc Hwf. revert st.
  induction items as [|lineItem items IH]; intros st Hown; cbn [forEach summarizeValues].
  { unfold ret. intros [= <- <-]. split; [done | by repeat split]. }
  unfold bind at 1, summarizeLineItem at 1.
  destruct (findLowestCostProduct lineItem) as [[product cost]|e] eqn:Hfind.
  2: { by intros [= <- <-]. }
  destruct (aggregateNutrients (nutrientFacts product) _) as [r1 t] eqn:Hagg.
  destruct (aggregateNutrients_refines _ _ _ _ _ Halloc Hown
              (winner_wellFormed _ _ _ _ Hwf Hfind) Hagg) as [Hown1 Hres].
  simpl in Hres.
  destruct (mergeFacts h0 (nutrientFacts product) _) as [acc|e].
  - destruct Hres as [-> <-]. intros Hloop.
    apply IH in Hloop; [|by destruct t]. done.
  - subst r1. intros [= <- <-]. split; [by destruct t | done].
Qed.

(** [summarizeRecipe] writes to no object of the heap it is run on, and
    shows its caller what the summary on values says. *)
Lemma summarizeRecipe_refines recipe h :
  allocatesResults ->
  wellFormed h ->
  h `prefix_of` (summarizeRecipe recipe h).2
  /\ observed (summarizeRecipe recipe h) = summaryOnValues h recipe.
Proof.
  intros Halloc Hwf. unfold summarizeRecipe, summaryOnValues, observed.
  destruct (forEach summarizeLineItem (lineItems recipe) _) as [r st'] eqn:Hloop.
  destruct (summarizeLineItems_refines h (lineItems recipe)
              {| totalCost := zero; totalNutrients := empty; store := h |} r st'
              Halloc Hwf (owned_start h) Hloop)
    as [(Hpre & _) Hres].
  unfold empty in *. simpl in *.
  destruct (summarizeValues h (lineItems recipe) zero []) as [[cost acc]|e].
  - destruct Hres as (-> & <- & <-). simpl. split; [done|].
    by rewrite entries_contents, contents_sortKeys.
  - subst r. by simpl.
Qed.

(** The values read from a heap are the values read from any heap that
    extends it. *)
Lemma mergeFacts_extend h h' facts acc :
  h `prefix_of` h' ->
  Forall (fun fact => quantityAmount fact < length h) facts ->
  mergeFacts h' facts acc = mergeFacts h facts acc.
Proof.
  intros Hpre Hfacts. revert acc.
  induction Hfacts as [|fact facts Hfact _ IH]; intros acc; simpl; [done|].
  assert (mergeFact h' fact acc = mergeFact h fact acc) as ->.
  { unfold mergeFact. destruct (lookup_lt_is_Some_2 _ _ Hfact) as [u Hu].
    by rewrite Hu, (prefix_lookup_Some _ _ _ _ Hu Hpre). }
  destruct (mergeFact h fact acc); [apply IH | done].
Qed.

Lemma summarizeValues_extend h h' items cost acc :
  wellFormed h ->
  h `prefix_of` h' ->
  summarizeValues h' items cost acc = summarizeValues h items cost acc.
Proof.
  intros Hwf Hpre. revert cost acc.
  induction items as [|lineItem items IH]; intros cost acc; simpl; [done|].
  destruct (findLowestCostProduct lineItem) as [[product c]|e] eqn:Hfind; [|done].
  rewrite (mergeFacts_extend h h') by eauto using winner_wellFormed.
  destruct (mergeFacts h (nutrientFacts product) acc); [apply IH | done].
Qed.

Lemma wellFormed_extend h h' : wellFormed h -> h `prefix_of` h' -> wellFormed h'.
Proof.
  intros Hwf Hpre name product fact Hp Hf.
  pose proof (Hwf name product fact Hp Hf). apply prefix_length in Hpre. lia.
Qed.

End Summary.

(** ** The loop of [summarizeRecipe] *)

Section SummaryLoop.

Context `{Collaborators}.

Lemma aggregateNutrients_app facts1 facts2 st :
  aggregateNutrients (facts1 ++ facts2) st =
  match aggregateNutrients facts1 st with
  | (Normal _, st') => aggregateNutrients facts2 st'
  | (Throw e, st') => (Throw e, st')
  end.
Proof. apply forEach_app. Qed.

Lemma totals_eta (t : totals) :
  {| existingNutrientFacts := existingNutrientFacts t; memory := memory t |} = t.
Proof. by destruct t. Qed.

(** The loop ends normally exactly when every line item has a winner and
    the facts of the winners, in order, merge without an exception; the
    cost is then the sum of the winners' costs, added one by one. *)
Lemma summarizeLineItems_Normal items st st' :
  forEach summarizeLineItem items st = (Normal tt, st') <->
  exists winners,
    Forall2 (fun lineItem winner => findLowestCostProduct lineItem = Normal winner)
            items winners
    /\ totalCost st' = fold_left add winners.*2 (totalCost st)
    /\ aggregateNutrients (winner ← winners; nutrientFacts winner.1)
         {| existingNutrientFacts := totalNutrients st; memory := store st |}
       = (Normal tt,
          {| existingNutrientFacts := totalNutrients st'; memory := store st' |}).
Proof.
  revert st. induction items as [|lineItem items IH]; intros st; cbn [forEach].
  { unfold ret. split.
    - intros [= <-]. exists []. by repeat split.
    - intros (winners & Hw & Hcost & Hagg). inversion Hw; subst.
      cbn in Hagg. injection Hagg as Ho Hh. destruct st, st'; simpl in *. by subst. }
  unfold bind at 1, summarizeLineItem at 1.
  destruct (findLowestCostProduct lineItem) as [[product cost]|e] eqn:Hfind.
  2: { split; [done|]. intros (winners & Hw & _). inversion Hw; subst. congruence. }
  destruct (aggregateNutrients (nutrientFacts product) _) as [r1 t] eqn:Hagg.
  split.
  - destruct r1 as [[]|e]; [|done]. intros Hloop.
    apply IH in Hloop as (winners & Hw & Hcost & Hrest). simpl in *.
    exists ((product, cost) :: winners). repeat split.
    + by constructor.
    + done.
    + rewrite bind_cons, aggregateNutrients_app. simpl. rewrite Hagg.
      by rewrite totals_eta in Hrest.
  - intros (winners & Hw & Hcost & Hall).
    inversion Hw as [|? [p c] ? ws Hp Hws]; subst.
    rewrite Hfind in Hp. injection Hp as <- <-.
    rewrite bind_cons, aggregateNutrients_app in Hall. simpl in Hall. rewrite Hagg in Hall.
    destruct r1 as [[]|e]; [|done].
    apply IH. exists ws. simpl. repeat split; [done | done |].
    by rewrite totals_eta.
Qed.

(** An exception of [findLowestCostProduct] for any line item ends the
    loop with an exception. *)
Lemma summarizeLineItems_Throw items lineItem e st :
  lineItem ∈ items ->
  findLowestCostProduct lineItem = Throw e ->
  exists e', (forEach summarizeLineItem items st).1 = Throw e'.
Proof.
  intros Hin Hfind. revert st.
  induction items as [|lineItem' items IH]; intros st; [by apply elem_of_nil in Hin|].
  cbn [forEach]. unfold bind.
  destruct (summarizeLineItem lineItem' st) as [[[]|e1] st1] eqn:Hstep; [|by exists e1].
  apply elem_of_cons in Hin as [->|Hin]; [|by apply IH].
  unfold summarizeLineItem in Hstep. rewrite Hfind in Hstep. done.
Qed.

End SummaryLoop.

(** ** The summary of a recipe *)

Section SummaryTheorems.

Context `{Collaborators}.

(** C1: [summarizeRecipe] returns a summary exactly when every line item,
    taken in order, has a winner and the nutrient facts of the winners
    merge, product after product, into the dictionary that starts empty;
    [cheapestCost] is then the sum of the costs [findLowestCostProduct]
    returned, added one by one to [0], and [nutrientsAtCheapestCost] is
    what [sortKeys] returns for that dictionary. *)
Theorem summarizeRecipe_sums_winners recipe h summary h' :
  summarizeRecipe recipe h = (Normal summary, h') <->
  exists winners merged,
    Forall2 (fun lineItem winner => findLowestCostProduct lineItem = Normal winner)
            (lineItems recipe) winners
    /\ cheapestCost summary = fold_left add winners.*2 zero
    /\ aggregateNutrients (winner ← winners; nutrientFacts winner.1)
         {| existingNutrientFacts := empty; memory := h |}
       = (Normal tt, {| existingNutrientFacts := merged; memory := h' |})
    /\ nutrientsAtCheapestCost summary = sortKeys merged.
Proof.
  unfold summarizeRecipe.
  destruct (forEach summarizeLineItem (lineItems recipe) _) as [[[]|e] st'] eqn:Hloop.
  - apply summarizeLineItems_Normal in Hloop as (winners & Hw & Hcost & Hagg).
    simpl in *. split.
    + intros [= <- <-]. exists winners, (totalNutrients st'). by repeat split.
    + intros (winners' & merged & Hw' & Hcost' & Hagg' & Hsorted).
      assert (winners' = winners) as ->.
      { clear -Hw Hw'. revert winners' Hw'.
        induction Hw as [|li w items ws Hli _ IH]; intros winners' Hw'.
        - by inversion Hw'.
        - inversion Hw' as [|? w' ? ws' Hli' Hws']; subst.
          f_equal; [congruence | by apply IH]. }
      rewrite Hagg in Hagg'. injection Hagg' as <- <-.
      destruct summary; simpl in *. congruence.
  - split; [done|]. intros (winners & merged & Hw & Hcost & Hagg & _).
    assert (forEach summarizeLineItem (lineItems recipe)
              {| totalCost := zero; totalNutrients := empty; store := h |}
            = (Normal tt, {| totalCost := fold_left add winners.*2 zero;
                             totalNutrients := merged; store := h' |})) as Hloop'.
    { apply summarizeLineItems_Normal. exists winners. by repeat split. }
    congruence.
Qed.

(** C9: for a recipe without line items [summarizeRecipe] returns the cost
    [0] and a dictionary with no key, and leaves the heap as it was. *)
Theorem summarizeRecipe_no_line_items recipe h :
  lineItems recipe = [] ->
  summarizeRecipe recipe h
  = (Normal {| cheapestCost := zero; nutrientsAtCheapestCost := empty |}, h).
Proof. intros Hitems. unfold summarizeRecipe. by rewrite Hitems. Qed.

(** C3, amended: [findLowestCostProduct] throws the "no products available"
    error exactly when the real cost of every offer can be computed and
    none of them is below [Infinity]; this is so when the ingredient has no
    candidate product or no offer, and also when every offer costs
    [Infinity] or [NaN].  When [findLowestCostProduct] throws for a line
    item, [summarizeRecipe] throws and returns no summary; it throws that
    very exception when the line items before it are summarized without
    one. *)
Theorem no_candidates_aborts lineItem :
  (findLowestCostProduct lineItem = Throw NoCandidatesError <->
   forall o, o ∈ offers lineItem ->
     exists c, realCostOf lineItem o.2 = Normal c /\ lt c Infinity = false)
  /\ (offers lineItem = [] -> findLowestCostProduct lineItem = Throw NoCandidatesError)
  /\ (forall recipe h e,
        lineItem ∈ lineItems recipe ->
        findLowestCostProduct lineItem = Throw e ->
        exists e', (summarizeRecipe recipe h).1 = Throw e')
  /\ (forall name before after h e summary h',
        findLowestCostProduct lineItem = Throw e ->
        summarizeRecipe {| recipeName := name; lineItems := before |} h
        = (Normal summary, h') ->
        (summarizeRecipe
           {| recipeName := name; lineItems := before ++ lineItem :: after |} h).1
        = Throw e).
Proof.
  split; [apply findLowestCostProduct_NoCandidates|]. split; [|split].
  - intros Hnone. apply findLowestCostProduct_NoCandidates.
    intros o Ho. rewrite Hnone in Ho. by apply elem_of_nil in Ho.
  - intros recipe h e Hin Hfind. unfold summarizeRecipe.
    destruct (summarizeLineItems_Throw _ _ _
                {| totalCost := zero; totalNutrients := empty; store := h |} Hin Hfind)
      as [e' He'].
    destruct (forEach summarizeLineItem (lineItems recipe) _) as [[[]|e''] st'];
      simpl in *; [done | by exists e''].
  - intros name before after h e summary h' Hfind. unfold summarizeRecipe. simpl.
    rewrite forEach_app.
    destruct (forEach summarizeLineItem before _) as [[[]|e''] st']; [|done].
    intros _. cbn [forEach]. unfold bind, summarizeLineItem at 1. by rewrite Hfind.
Qed.

(** C8, amended: when [GetNutrientFactInBaseUnits] allocates the facts it
    returns, [summarizeRecipe] writes to no object of the heap it is run
    on: every unit of measure of the catalog reads after the call as it
    read before.  A second call, on the heap the first one left, then
    shows its caller what the first one showed: the same exception, or the
    same cost and the same keys, in the same order, with the same facts. *)
Theorem summarizeRecipe_repeatable recipe h :
  allocatesResults ->
  wellFormed h ->
  (forall l u, h !! l = Some u -> (summarizeRecipe recipe h).2 !! l = Some u)
  /\ observed (summarizeRecipe recipe (summarizeRecipe recipe h).2)
     = observed (summarizeRecipe recipe h).
Proof.
  intros Halloc Hwf.
  destruct (summarizeRecipe_refines recipe h Halloc Hwf) as [Hpre Hobs].
  split.
  - intros l u Hl. by eapply prefix_lookup_Some.
  - destruct (summarizeRecipe_refines recipe _ Halloc (wellFormed_extend _ _ Hwf Hpre))
      as [_ Hobs'].
    rewrite Hobs, Hobs'. unfold summaryOnValues.
    by rewrite (summarizeValues_extend h).
Qed.

End SummaryTheorems.

(** ** One fact *)

Section MergeStep.

Context `{Collaborators}.

(** The conversion leaves the dictionary alone. *)
Lemma callGetNutrientFactInBaseUnits_dictionary fact st r st1 :
  callGetNutrientFactInBaseUnits fact st = (r, st1) ->
  existingNutrientFacts st1 = existingNutrientFacts st.
Proof.
  unfold callGetNutrientFactInBaseUnits, bind, read, write, ret, throw, call. simpl.
  destruct (memory st !! quantityAmount fact) as [u|]; [|by intros [= <- <-]].
  destruct (GetNutrientFactInBaseUnits (nutrientName fact) u) as [[name [|u']]|m];
    simpl; by intros [= <- <-].
Qed.

(** The callback of [aggregateNutrients], statement by statement. *)
Lemma aggregateFact_cases fact st :
  aggregateFact fact st =
  match callGetNutrientFactInBaseUnits fact st with
  | (Throw e, st1) => (Throw e, st1)
  | (Normal baseUnitFact, st1) =>
      match get (nutrientName fact) (existingNutrientFacts st) with
      | Some existing =>
          match memory st1 !! quantityAmount existing,
                memory st1 !! quantityAmount baseUnitFact with
          | Some target, Some source =>
              (Normal tt,
               {| existingNutrientFacts := existingNutrientFacts st;
                  memory := <[quantityAmount existing :=
                                with_amount target (add (uomAmount target) (uomAmount source))]>
                              (memory st1) |})
          | _, _ => (Throw TypeError, st1)
          end
      | None =>
          if inherited (nutrientName fact)
          then (Throw TypeError, st1)
          else
            (Normal tt,
             {| existingNutrientFacts :=
                  set (nutrientName fact) baseUnitFact (existingNutrientFacts st);
                memory := memory st1 |})
      end
  end.
Proof.
  unfold aggregateFact. unfold bind at 1.
  destruct (callGetNutrientFactInBaseUnits fact st) as [[b|e] st1] eqn:Hconv; [|done].
  rewrite <-(callGetNutrientFactInBaseUnits_dictionary _ _ _ _ Hconv).
  unfold bind, read, write, throw. simpl.
  destruct (get (nutrientName fact) (existingNutrientFacts st1)) as [e|].
  - destruct (memory st1 !! quantityAmount e) as [t|]; [|done].
    by destruct (memory st1 !! quantityAmount b).
  - destruct (inherited (nutrientName fact)) eqn:Hinherited; [done|].
    by rewrite assign_not_inherited.
Qed.





End MergeStep.

(** ** Totals by name *)

Section Totals.

Context `{Collaborators}.

Lemma totalOf_contents h o name :
  totalOf h o name = storedAmount (get name (contents h o)).
Proof.
  unfold totalOf, storedAmount. rewrite get_contents.
  by destruct (get name o) as [fact|].
Qed.

Lemma baseAmounts_cons_same h0 fact facts :
  baseAmounts h0 (nutrientName fact) (fact :: facts)
  = match baseAmount h0 fact with
    | Some a => a :: baseAmounts h0 (nutrientName fact) facts
    | None => baseAmounts h0 (nutrientName fact) facts
    end.
Proof.
  unfold baseAmounts, factsNamed. rewrite filter_cons_True by done. done.
Qed.

Lemma baseAmounts_cons_other h0 name fact facts :
  nutrientName fact <> name ->
  baseAmounts h0 name (fact :: facts) = baseAmounts h0 name facts.
Proof.
  intros Hne. unfold baseAmounts, factsNamed. by rewrite filter_cons_False.
Qed.

(** On values: the amount kept under a name after a merge is the amount
    kept before, if any, plus the base amounts of the facts of that name,
    one after the other. *)
Lemma mergeFacts_amount h0 name facts acc acc' :
  mergeFacts h0 facts acc = Normal acc' ->
  storedAmount (get name acc')
  = match storedAmount (get name acc) with
    | Some a => Some (fold_left add (baseAmounts h0 name facts) a)
    | None => leftSum (baseAmounts h0 name facts)
    end.
Proof.
  revert acc. induction facts as [|fact facts IH]; intros acc; simpl.
  { intros [= <-]. by destruct (storedAmount (get name acc)). }
  destruct (mergeFact h0 fact acc) as [acc1|e] eqn:Hstep; [|done].
  intros Hrest. rewrite (IH _ Hrest). clear IH Hrest.
  revert Hstep. unfold mergeFact.
  destruct (decide (nutrientName fact = name)) as [<-|Hne].
  - rewrite baseAmounts_cons_same. unfold baseAmount.
    destruct (h0 !! quantityAmount fact) as [u|]; [|intros [=]]. simpl.
    destruct (GetNutrientFactInBaseUnits (nutrientName fact) u) as [[name' q]|m];
      [|intros [=]].
    simpl.
    destruct (get (nutrientName fact) acc) as [[name0 [t|]]|] eqn:Hget;
      [| intros [=] |].
    + intros [= <-]. rewrite get_set_eq. simpl. by destruct q.
    + destruct (inherited (nutrientName fact)) eqn:Hinherited; [intros [=]|].
      rewrite assign_not_inherited by done.
      intros [= <-]. rewrite get_set_eq. simpl. by destruct q.
  - rewrite (baseAmounts_cons_other _ _ _ _ Hne).
    destruct (h0 !! quantityAmount fact) as [u|]; [|intros [=]].
    destruct (GetNutrientFactInBaseUnits (nutrientName fact) u) as [[name' q]|m];
      [|intros [=]].
    simpl.
    destruct (get (nutrientName fact) acc) as [[name0 [t|]]|]; [| intros [=] |].
    + intros [= <-]. by rewrite get_set_ne.
    + destruct (inherited (nutrientName fact)) eqn:Hinherited; [intros [=]|].
      rewrite assign_not_inherited by done.
      intros [= <-]. by rewrite get_set_ne.
Qed.

(** When [GetNutrientFactInBaseUnits] allocates its results, the total a
    merge into the empty dictionary stores for a name is the sum of the
    base amounts of the facts of that name, added from the left in the
    order of the sequence. *)
Lemma totals_by_name h facts st' name :
  allocatesResults ->
  Forall (fun fact => quantityAmount fact < length h) facts ->
  aggregateNutrients facts {| existingNutrientFacts := empty; memory := h |}
  = (Normal tt, st') ->
  totalOf (memory st') (existingNutrientFacts st') name
  = leftSum (baseAmounts h name facts).
Proof.
  intros Halloc Hfacts Hrun.
  destruct (aggregateNutrients_refines _ _ _ _ _ Halloc (owned_start h) Hfacts Hrun)
    as [_ Hres].
  cbn [memory existingNutrientFacts] in Hres.
  destruct (mergeFacts h facts (contents h empty)) as [acc|e] eqn:Hmerge;
    [|discriminate Hres].
  destruct Hres as [_ <-].
  by rewrite totalOf_contents, (mergeFacts_amount _ name _ _ _ Hmerge).
Qed.

(** A function that takes one value on a list takes the same values, in
    the same places, on every permutation of the list. *)
Lemma omap_constant_perm {A B} (f : A -> option B) (l1 l2 : list A) :
  l1 ≡ₚ l2 ->
  (forall x y, x ∈ l1 -> y ∈ l1 -> f x = f y) ->
  omap f l1 = omap f l2.
Proof.
  induction 1 as [|x l1 l2 Hperm IH|x y l|l1 l2 l3 H12 IH12 H23 IH23]; intros Hconst.
  - done.
  - cbn [omap list_omap]. rewrite IH; [done|].
    intros a b Ha Hb. apply Hconst; by right.
  - cbn [omap list_omap]. rewrite (Hconst y x); [|left|right; left].
    by destruct (f x).
  - rewrite IH12 by done. apply IH23.
    intros a b Ha Hb. apply Hconst; by rewrite H12.
Qed.

(** C5, amended: how the facts are grouped into calls never matters:
    merging a sequence and then another is merging the two, one after the
    other, in one call.  When [GetNutrientFactInBaseUnits] allocates its
    results, the total a merge into the empty dictionary leaves under a
    name is the sum of the base amounts of the facts of that name, added
    from the left in the order they come.  So two sequences that list the
    facts of every name in the same order leave the same total under every
    name, however the names are interleaved; and so do a sequence and any
    permutation of it when the facts of a name all have the same base
    amount. *)
Theorem totals_independent_of_interleaving :
  (forall facts1 facts2 st,
      aggregateNutrients (facts1 ++ facts2) st
      = match aggregateNutrients facts1 st with
        | (Normal _, st') => aggregateNutrients facts2 st'
        | (Throw e, st') => (Throw e, st')
        end)
  /\ (forall h facts st' name,
        allocatesResults ->
        Forall (fun fact => quantityAmount fact < length h) facts ->
        aggregateNutrients facts {| existingNutrientFacts := empty; memory := h |}
        = (Normal tt, st') ->
        totalOf (memory st') (existingNutrientFacts st') name
        = leftSum (baseAmounts h name facts))
  /\ (forall h facts1 facts2 st1 st2,
        allocatesResults ->
        Forall (fun fact => quantityAmount fact < length h) (facts1 ++ facts2) ->
        (forall name, factsNamed name facts1 = factsNamed name facts2) ->
        aggregateNutrients facts1 {| existingNutrientFacts := empty; memory := h |}
        = (Normal tt, st1) ->
        aggregateNutrients facts2 {| existingNutrientFacts := empty; memory := h |}
        = (Normal tt, st2) ->
        forall name,
          totalOf (memory st1) (existingNutrientFacts st1) name
          = totalOf (memory st2) (existingNutrientFacts st2) name)
  /\ (forall h facts1 facts2 st1 st2,
        allocatesResults ->
        Forall (fun fact => quantityAmount fact < length h) facts1 ->
        facts1 ≡ₚ facts2 ->
        (forall fact fact',
            fact ∈ facts1 -> fact' ∈ facts1 ->
            nutrientName fact = nutrientName fact' ->
            baseAmount h fact = baseAmount h fact') ->
        aggregateNutrients facts1 {| existingNutrientFacts := empty; memory := h |}
        = (Normal tt, st1) ->
        aggregateNutrients facts2 {| existingNutrientFacts := empty; memory := h |}
        = (Normal tt, st2) ->
        forall name,
          totalOf (memory st1) (existingNutrientFacts st1) name
          = totalOf (memory st2) (existingNutrientFacts st2) name).
Proof.
  split; [apply aggregateNutrients_app|]. split; [|split].
  - intros h facts st' name. apply totals_by_name.
  - intros h facts1 facts2 st1 st2 Halloc [Hf1 Hf2]%Forall_app Hsame Hrun1 Hrun2 name.
    rewrite (totals_by_name _ _ _ name Halloc Hf1 Hrun1).
    rewrite (totals_by_name _ _ _ name Halloc Hf2 Hrun2).
    unfold baseAmounts. by rewrite Hsame.
  - intros h facts1 facts2 st1 st2 Halloc Hf1 Hperm Hconst Hrun1 Hrun2 name.
    assert (Hf2 : Forall (fun fact => quantityAmount fact < length h) facts2)
      by by rewrite <-Hperm.
    rewrite (totals_by_name _ _ _ name Halloc Hf1 Hrun1).
    rewrite (totals_by_name _ _ _ name Halloc Hf2 Hrun2).
    unfold baseAmounts, factsNamed. f_equal. apply omap_constant_perm.
    + by rewrite Hperm.
    + intros fact fact' [Hn Hin]%list_elem_of_filter [Hn' Hin']%list_elem_of_filter.
      apply Hconst; [done | done | congruence].
Qed.

End Totals.

(** ** The order on keys *)

Section KeyOrder.

Lemma ascii_compare_lt_trans a b c :
  Ascii.compare a b = Lt -> Ascii.compare b c = Lt -> Ascii.compare a c = Lt.
Proof. unfold Ascii.compare. rewrite !N.compare_lt_iff. lia. Qed.

Lemma string_compare_lt_trans a b c :
  String.compare a b = Lt -> String.compare b c = Lt -> String.compare a c = Lt.
Proof.
  revert b c. induction a as [|x a IH]; intros [|y b] [|z c]; simpl; try done.
  destruct (Ascii.compare x y) eqn:Hxy; [| |done].
  - apply Ascii.compare_eq_iff in Hxy as ->.
    destruct (Ascii.compare y z); [apply IH | done | done].
  - intros _. destruct (Ascii.compare y z) eqn:Hyz; [| |done].
    + apply Ascii.compare_eq_iff in Hyz as <-. by rewrite Hxy.
    + intros _. by rewrite (ascii_compare_lt_trans _ _ _ Hxy Hyz).
Qed.

Lemma string_compare_refl a : String.compare a a = Eq.
Proof.
  induction a as [|x a IH]; simpl; [done|].
  unfold Ascii.compare. by rewrite N.compare_refl.
Qed.

Lemma string_ltb_trans a b c :
  String.ltb a b = true -> String.ltb b c = true -> String.ltb a c = true.
Proof.
  unfold String.ltb.
  destruct (String.compare a b) eqn:Hab; try done.
  destruct (String.compare b c) eqn:Hbc; try done.
  by rewrite (string_compare_lt_trans _ _ _ Hab Hbc).
Qed.

Lemma string_leb_ltb a b : String.leb a b = true -> a <> b -> String.ltb a b = true.
Proof.
  unfold String.leb, String.ltb.
  destruct (String.compare a b) eqn:Hab; try done.
  by apply String.compare_eq_iff in Hab.
Qed.

Lemma string_not_leb a b : String.leb a b = false -> String.ltb b a = true.
Proof.
  unfold String.leb, String.ltb. rewrite (String.compare_antisym a b).
  by destruct (String.compare b a).
Qed.

Lemma string_ltb_irrefl a : String.ltb a a = false.
Proof. unfold String.ltb. by rewrite string_compare_refl. Qed.

End KeyOrder.

Section Sorting.

Lemma insert_key_perm k l : insert_key k l ≡ₚ k :: l.
Proof.
  induction l as [|k' l IH]; simpl; [done|].
  destruct (String.leb k k'); [done|]. rewrite IH. apply Permutation_swap.
Qed.

Lemma sort_perm l : sort l ≡ₚ l.
Proof.
  induction l as [|k l IH]; simpl; [done|].
  unfold sort in *. simpl. by rewrite insert_key_perm, IH.
Qed.

Lemma insert_key_sorted k l :
  k ∉ l -> StronglySorted ascending l -> StronglySorted ascending (insert_key k l).
Proof.
  intros Hk Hl. induction Hl as [|k' l Hl IH Hall]; simpl.
  { repeat constructor. }
  apply not_elem_of_cons in Hk as [Hne Hk].
  destruct (String.leb k k') eqn:Hle.
  - pose proof (string_leb_ltb _ _ Hle Hne) as Hlt.
    constructor; [by constructor|]. constructor; [done|].
    eapply Forall_impl; [exact Hall|]. intros k''. by apply string_ltb_trans.
  - constructor; [by apply IH|].
    rewrite insert_key_perm. constructor; [|done]. by apply string_not_leb.
Qed.

Lemma sort_sorted l : NoDup l -> StronglySorted ascending (sort l).
Proof.
  induction 1 as [|k l Hk _ IH]; [constructor|].
  unfold sort in *. simpl. apply insert_key_sorted; [|done].
  by rewrite sort_perm.
Qed.

End Sorting.

Section OwnKeys.

Context {V : Type}.
Implicit Types (o acc : jsobject V) (ks : list string).

Lemma index_keys_keys ks :
  (index_keys ks).*2 = filter (fun k => is_array_index k = true) ks.
Proof.
  unfold index_keys, is_array_index.
  induction ks as [|k ks IH]; [done|].
  rewrite filter_cons. cbn [omap list_omap].
  destruct (array_index k) as [n|]; case_decide; try done.
  rewrite fmap_cons. by rewrite IH.
Qed.

Lemma insert_index_perm x l : insert_index x l ≡ₚ x :: l.
Proof.
  induction l as [|y l IH]; simpl; [done|].
  destruct (x.1 <=? y.1)%N; [done|]. rewrite IH. apply Permutation_swap.
Qed.

Lemma sort_indices_perm l : sort_indices l ≡ₚ l.
Proof.
  induction l as [|x l IH]; [done|].
  unfold sort_indices in *. simpl. by rewrite insert_index_perm, IH.
Qed.

(** [Object.keys] lists every key once. *)
Lemma own_keys_perm o : own_keys o ≡ₚ o.*1.
Proof.
  unfold own_keys. rewrite sort_indices_perm, index_keys_keys.
  rewrite <-(filter_app_complement (fun k => is_array_index k = true) o.*1) at 3.
  f_equiv. apply reflexive_eq. apply list_filter_iff.
  intros k. by destruct (is_array_index k).
Qed.

Lemma own_keys_plain o :
  Forall (fun k => is_array_index k = false) o.*1 -> own_keys o = o.*1.
Proof.
  intros Hplain. unfold own_keys.
  assert (index_keys o.*1 = []) as ->.
  { unfold index_keys. induction Hplain as [|k ks Hk _ IH]; [done|].
    cbn [omap list_omap]. unfold is_array_index in Hk.
    destruct (array_index k); [done | exact IH]. }
  simpl. induction Hplain as [|k ks Hk _ IH]; [done|].
  rewrite filter_cons, decide_True by done. by rewrite IH.
Qed.

(** The loop of [sortKeys] creates the keys in the order it meets them. *)
Lemma sortKeys_loop o ks acc :
  NoDup ks ->
  (forall k, k ∈ ks -> is_Some (get k o)) ->
  (forall k, k ∈ ks -> k ∉ acc.*1) ->
  (fold_left (fun result key =>
                match get key o with
                | Some v => set key v result
                | None => result
                end) ks acc).*1 = acc.*1 ++ ks.
Proof.
  intros Hnd. revert acc. induction Hnd as [|k ks Hk Hnd IH]; intros acc Hget Hfresh.
  { simpl. by rewrite app_nil_r. }
  cbn [fold_left]. destruct (Hget k) as [v Hv]; [left|]. rewrite Hv.
  rewrite IH.
  - rewrite set_keys_new; [by rewrite <-app_assoc|].
    apply get_None. apply Hfresh. left.
  - intros k' Hk'. apply Hget. by right.
  - intros k' Hk'. rewrite set_keys_new by (apply get_None, Hfresh; left).
    rewrite not_elem_of_app, list_elem_of_singleton. split.
    + apply Hfresh. by right.
    + intros ->. done.
Qed.

Lemma sort_NoDup ks : NoDup ks -> NoDup (sort ks).
Proof. intros Hnd. by rewrite sort_perm. Qed.

(** The loop of [sortKeys] passes over the key ["__proto__"] and writes an
    own property for every other key. *)
Lemma sortKeys_loop_assign o ks acc :
  get "__proto__" acc = None ->
  fold_left (fun result key =>
               match get key o with
               | Some v => assign key v result
               | None => result
               end) ks acc
  = fold_left (fun result key =>
                 match get key o with
                 | Some v => set key v result
                 | None => result
                 end) (filter (fun k => k <> "__proto__") ks) acc.
Proof.
  revert acc. induction ks as [|k ks IH]; intros acc Hacc; [done|].
  cbn [fold_left]. rewrite filter_cons.
  destruct (decide (k <> "__proto__")) as [Hk|Hk].
  - cbn [fold_left]. destruct (get k o) as [v|]; [|by apply IH].
    rewrite (assign_set _ _ _ Hk). apply IH. by rewrite get_set_ne.
  - apply dec_stable in Hk as ->. destruct (get "__proto__" o) as [v|]; [|by apply IH].
    rewrite (assign_proto _ _ Hacc). by apply IH.
Qed.

Lemma sortKeys_plain o :
  sortKeys o
  = fold_left (fun result key =>
                 match get key o with
                 | Some v => set key v result
                 | None => result
                 end) (filter (fun k => k <> "__proto__") (sort (own_keys o))) empty.
Proof. unfold sortKeys. by apply sortKeys_loop_assign. Qed.

Lemma sortKeys_keys o :
  NoDup o.*1 ->
  (sortKeys o).*1 = filter (fun k => k <> "__proto__") (sort (own_keys o)).
Proof.
  intros Hnd. rewrite sortKeys_plain, sortKeys_loop; [done | | |].
  - apply NoDup_filter, sort_NoDup. by rewrite own_keys_perm.
  - intros k [_ Hk]%list_elem_of_filter. revert Hk.
    rewrite sort_perm, own_keys_perm. intros Hk.
    destruct (get k o) eqn:Hget; [done|]. by apply get_None in Hget.
  - intros k _. apply not_elem_of_nil.
Qed.

Lemma filter_all (P : string -> Prop) `{forall k, Decision (P k)} ks :
  Forall P ks -> filter P ks = ks.
Proof.
  induction 1 as [|k ks Hk _ IH]; [done|].
  by rewrite filter_cons, decide_True, IH.
Qed.

(** An object without the key ["__proto__"] keeps all its keys. *)
Lemma sortKeys_keys_all o :
  NoDup o.*1 -> "__proto__" ∉ o.*1 -> (sortKeys o).*1 = sort (own_keys o).
Proof.
  intros Hnd Hproto. rewrite (sortKeys_keys _ Hnd).
  apply filter_all. apply Forall_forall. intros k.
  rewrite sort_perm, own_keys_perm. by intros Hk ->.
Qed.

Lemma filter_sorted (P : string -> Prop) `{forall k, Decision (P k)} ks :
  StronglySorted ascending ks -> StronglySorted ascending (filter P ks).
Proof.
  induction 1 as [|k ks _ IH Hall]; [constructor|].
  rewrite filter_cons. case_decide; [|done].
  constructor; [done|]. apply Forall_forall. intros k' [_ Hk']%list_elem_of_filter.
  by apply (proj1 (Forall_forall _ _) Hall).
Qed.

(** The keys of what [sortKeys] returns, as [Object.keys] lists them: the
    array indices, then the other keys in ascending order. *)
Lemma sortKeys_order o :
  NoDup o.*1 ->
  exists indices names,
    own_keys (sortKeys o) = indices ++ names
    /\ Forall (fun k => is_array_index k = true) indices
    /\ Forall (fun k => is_array_index k = false) names
    /\ StronglySorted ascending names.
Proof.
  intros Hnd. unfold own_keys at 1. rewrite (sortKeys_keys _ Hnd).
  eexists _, _. split; [done|]. split; [|split].
  - apply Forall_forall. intros k. rewrite sort_indices_perm, index_keys_keys.
    by intros [? _]%list_elem_of_filter.
  - apply Forall_forall. intros k. by intros [? _]%list_elem_of_filter.
  - apply filter_sorted.
    apply (filter_sorted (fun k => k <> "__proto__")), sort_sorted.
    by rewrite own_keys_perm.
Qed.

End OwnKeys.

(** ** The keys of the summary *)

Section SummaryKeys.

Context `{Collaborators}.

Lemma aggregateFact_keys_NoDup fact st r st' :
  NoDup (existingNutrientFacts st).*1 ->
  aggregateFact fact st = (r, st') ->
  NoDup (existingNutrientFacts st').*1.
Proof.
  intros Hnd. rewrite aggregateFact_cases.
  destruct (callGetNutrientFactInBaseUnits fact st) as [[b|e] st1] eqn:Hconv.
  2: { intros [= <- <-]. by rewrite (callGetNutrientFactInBaseUnits_dictionary _ _ _ _ Hconv). }
  pose proof (callGetNutrientFactInBaseUnits_dictionary _ _ _ _ Hconv) as Hdict.
  destruct (get (nutrientName fact) (existingNutrientFacts st)) as [e|].
  - destruct (memory st1 !! quantityAmount e), (memory st1 !! quantityAmount b);
      intros [= <- <-]; simpl; by rewrite ?Hdict.
  - destruct (inherited (nutrientName fact)).
    + intros [= <- <-]. by rewrite Hdict.
    + intros [= <- <-]. simpl. by apply set_keys_NoDup.
Qed.

Lemma aggregateNutrients_keys_NoDup facts st r st' :
  NoDup (existingNutrientFacts st).*1 ->
  aggregateNutrients facts st = (r, st') ->
  NoDup (existingNutrientFacts st').*1.
Proof.
  unfold aggregateNutrients. revert st.
  induction facts as [|fact facts IH]; intros st Hnd; cbn [forEach].
  { unfold ret. by intros [= <- <-]. }
  unfold bind. destruct (aggregateFact fact st) as [[[]|e] st1] eqn:Hstep.
  - apply IH. by eapply aggregateFact_keys_NoDup.
  - intros [= <- <-]. by eapply aggregateFact_keys_NoDup.
Qed.

Lemma summarizeLineItems_keys_NoDup items st r st' :
  NoDup (totalNutrients st).*1 ->
  forEach summarizeLineItem items st = (r, st') ->
  NoDup (totalNutrients st').*1.
Proof.
  revert st. induction items as [|lineItem items IH]; intros st Hnd; cbn [forEach].
  { unfold ret. by intros [= <- <-]. }
  unfold bind at 1, summarizeLineItem at 1.
  destruct (findLowestCostProduct lineItem) as [[product cost]|e].
  2: { by intros [= <- <-]. }
  destruct (aggregateNutrients (nutrientFacts product) _) as [r1 t] eqn:Hagg.
  apply aggregateNutrients_keys_NoDup in Hagg; [|done].
  destruct r1 as [[]|e].
  - by apply IH.
  - by intros [= <- <-].
Qed.

(** The keys of [nutrientsAtCheapestCost], as [Object.keys] lists them:
    the names that spell array indices, then the other names in ascending
    order. *)
Lemma summarizeRecipe_key_order recipe h summary h' :
  summarizeRecipe recipe h = (Normal summary, h') ->
  exists indices names,
    own_keys (nutrientsAtCheapestCost summary) = indices ++ names
    /\ Forall (fun k => is_array_index k = true) indices
    /\ Forall (fun k => is_array_index k = false) names
    /\ StronglySorted ascending names.
Proof.
  unfold summarizeRecipe.
  destruct (forEach summarizeLineItem (lineItems recipe) _) as [[[]|e] st'] eqn:Hloop;
    [|done].
  intros [= <- <-]. simpl. apply sortKeys_order.
  eapply summarizeLineItems_keys_NoDup; [|exact Hloop]. constructor.
Qed.

(** When no nutrient name spells an array index, the keys of
    [nutrientsAtCheapestCost] are in ascending order. *)
Lemma summarizeRecipe_keys_ascending recipe h summary h' :
  summarizeRecipe recipe h = (Normal summary, h') ->
  Forall (fun k => is_array_index k = false) (own_keys (nutrientsAtCheapestCost summary)) ->
  StronglySorted ascending (own_keys (nutrientsAtCheapestCost summary)).
Proof.
  intros Hrun Hplain.
  destruct (summarizeRecipe_key_order _ _ _ _ Hrun)
    as (indices & names & Hkeys & Hindices & _ & Hnames).
  rewrite Hkeys in *. apply Forall_app in Hplain as [Hplain _].
  destruct indices as [|k indices]; [done|].
  apply Forall_cons in Hplain as [Hk _]. apply Forall_cons in Hindices as [Hk' _].
  congruence.
Qed.

End SummaryKeys.

(** * The properties on the sample data *)

Module OnSamples.

Import Sample.

Lemma fresh_allocates catalog : @allocatesResults (collaborators catalog fresh).
Proof. intros name u name' q. simpl. unfold fresh. by intros [= <- <-]. Qed.

Lemma pantry_wellFormed : @wellFormed (collaborators grocery fresh) pantry.
Proof.
  intros name product fact. simpl. unfold grocery.
  destruct (String.eqb name "flour"); [|destruct (String.eqb name "milk")].
  - intros ->%list_elem_of_singleton. simpl.
    intros ->%list_elem_of_singleton. simpl. lia.
  - intros ->%list_elem_of_singleton. simpl.
    intros ->%list_elem_of_singleton. simpl. lia.
  - by intros ?%elem_of_nil.
Qed.

(** Flour at 3 and milk at 2 per gram: 2 g of flour and 1 g of milk cost
    8, and the proteins of both, 5 g and 10 g, add up under one key. *)
Lemma summarizeRecipe_sums_winners_witness :
  exists summary h',
    @summarizeRecipe (collaborators grocery fresh) cake pantry = (Normal summary, h')
    /\ cheapestCost summary = of_Z 8
    /\ totalOf h' (nutrientsAtCheapestCost summary) "Protein" = Some (of_Z 15)
    /\ exists winners merged,
         Forall2 (fun lineItem winner =>
                    @findLowestCostProduct (collaborators grocery fresh) lineItem
                    = Normal winner)
                 (lineItems cake) winners
         /\ cheapestCost summary = fold_left add winners.*2 zero
         /\ @aggregateNutrients (collaborators grocery fresh)
              (winner ← winners; nutrientFacts winner.1)
              {| existingNutrientFacts := empty; memory := pantry |}
            = (Normal tt, {| existingNutrientFacts := merged; memory := h' |})
         /\ nutrientsAtCheapestCost summary = sortKeys merged.
Proof.
  eexists _, _. split; [reflexivity|]. split; [reflexivity|]. split; [reflexivity|].
  apply (proj1 (summarizeRecipe_sums_winners (H := collaborators grocery fresh) cake pantry _ _)).
  reflexivity.
Defined.

(** A at 3 and B at 2 per gram, 2 g needed: both real costs are numbers
    below [Infinity], so a cost is returned; B wins at 4, which is no more
    than the 6 A would cost. *)
Lemma lowest_cost_is_lower_bound_witness :
  @findLowestCostProduct (collaborators (shop (of_Z 3) (of_Z 2)) fresh) (item "flour" 2)
  = Normal (productB (of_Z 2), of_Z 4)
  /\ (exists c,
        @realCostOf (collaborators (shop (of_Z 3) (of_Z 2)) fresh) (item "flour" 2)
          (offer (of_Z 3) (of_Z 1)) = Normal c
        /\ (is_nan c = false -> le (of_Z 4) c = true))
  /\ (exists product cost,
        @findLowestCostProduct (collaborators (shop (of_Z 3) (of_Z 2)) fresh)
          (item "flour" 2) = Normal (product, cost)).
Proof.
  split; [reflexivity|]. split.
  - apply (proj1 (lowest_cost_is_lower_bound
                    (H := collaborators (shop (of_Z 3) (of_Z 2)) fresh) (item "flour" 2))
                 (productB (of_Z 2)) (of_Z 4) eq_refl
                 (productA (of_Z 3), offer (of_Z 3) (of_Z 1))).
    simpl. left.
  - apply (proj2 (lowest_cost_is_lower_bound
                    (H := collaborators (shop (of_Z 3) (of_Z 2)) fresh) (item "flour" 2))).
    + intros o Ho. simpl in Ho.
      apply elem_of_cons in Ho as [->|Ho]; [by eexists|].
      apply elem_of_cons in Ho as [->|Ho]; [by eexists|].
      by apply elem_of_nil in Ho.
    + exists (productA (of_Z 3), offer (of_Z 3) (of_Z 1)), (of_Z 6).
      split; [left|]. split; reflexivity.
Defined.

(** Without the two provisos the bound fails.  With a product whose only
    offer buys 0 g for 0, the real cost of that offer is [NaN], B wins at
    10, and [10 <= NaN] is false.  With A and B at 2^1023 per gram and 2 g needed,
    both real costs overflow to [Infinity]: there are two offers and no
    cost is returned. *)
Lemma lowest_cost_above_some_offer :
  (@findLowestCostProduct (collaborators shopWithVoid fresh) (item "flour" 2)
   = Normal (productB (of_Z 5), of_Z 10)
   /\ (productVoid, offer zero zero)
      ∈ @offers (collaborators shopWithVoid fresh) (item "flour" 2)
   /\ @realCostOf (collaborators shopWithVoid fresh) (item "flour" 2) (offer zero zero)
      = Normal NaN
   /\ le (of_Z 10) NaN = false)
  /\ (@offers (collaborators (shop huge huge) fresh) (item "flour" 2)
      = [(productA huge, offer huge (of_Z 1)); (productB huge, offer huge (of_Z 1))]
      /\ binary64 huge
      /\ @realCostOf (collaborators (shop huge huge) fresh) (item "flour" 2)
           (offer huge (of_Z 1)) = Normal Infinity
      /\ @findLowestCostProduct (collaborators (shop huge huge) fresh) (item "flour" 2)
         = Throw NoCandidatesError).
Proof.
  split.
  - split; [reflexivity|]. split; [left|]. split; reflexivity.
  - repeat split; reflexivity.
Qed.

(** Salt is not sold: the line item has no offer, and the recipe that
    needs it has no summary. *)
Lemma no_candidates_aborts_witness :
  @findLowestCostProduct (collaborators (shop (of_Z 3) (of_Z 2)) fresh) (item "salt" 1)
  = Throw NoCandidatesError
  /\ (@summarizeRecipe (collaborators (shop (of_Z 3) (of_Z 2)) fresh) brine pantry).1
     = Throw NoCandidatesError.
Proof.
  pose proof (no_candidates_aborts
                (H := collaborators (shop (of_Z 3) (of_Z 2)) fresh) (item "salt" 1))
    as (_ & Hnone & _ & Hfirst).
  split; [exact (Hnone eq_refl)|].
  exact (Hfirst "brine" [item "flour" 2] [] pantry NoCandidatesError _ _
           (Hnone eq_refl) eq_refl).
Defined.

(** A and B at 2^1023 per gram, 2 g needed: the ingredient has two
    products with one offer each, and the "no products available" error is
    thrown. *)
Lemma no_candidates_with_offers :
  @GetProductsForIngredient (collaborators (shop huge huge) fresh) "flour"
  = [productA huge; productB huge]
  /\ supplierProducts (productA huge) = [offer huge (of_Z 1)]
  /\ @GetCostPerBaseUnit (collaborators (shop huge huge) fresh) (offer huge (of_Z 1))
     = Returns huge
  /\ mul huge (of_Z 2) = Infinity
  /\ @findLowestCostProduct (collaborators (shop huge huge) fresh) (item "flour" 2)
     = Throw NoCandidatesError.
Proof. repeat split; reflexivity. Qed.

(** A and B both at 2 per gram: A, met first, wins. *)
Lemma first_cheapest_offer_wins_witness :
  @findLowestCostProduct (collaborators (shop (of_Z 2) (of_Z 2)) fresh) (item "flour" 2)
  = Normal (productA (of_Z 2), of_Z 4)
  /\ exists before supplierProduct after,
       @offers (collaborators (shop (of_Z 2) (of_Z 2)) fresh) (item "flour" 2)
       = before ++ (productA (of_Z 2), supplierProduct) :: after
       /\ @realCostOf (collaborators (shop (of_Z 2) (of_Z 2)) fresh) (item "flour" 2)
            supplierProduct = Normal (of_Z 4)
       /\ (forall o c, o ∈ before ->
             @realCostOf (collaborators (shop (of_Z 2) (of_Z 2)) fresh) (item "flour" 2) o.2
             = Normal c -> le c (of_Z 4) = false)
       /\ (forall o c, o ∈ after ->
             @realCostOf (collaborators (shop (of_Z 2) (of_Z 2)) fresh) (item "flour" 2) o.2
             = Normal c -> lt c (of_Z 4) = false).
Proof.
  split; [reflexivity|].
  apply (proj1 (first_cheapest_offer_wins
                  (H := collaborators (shop (of_Z 2) (of_Z 2)) fresh) (item "flour" 2)
                  (productA (of_Z 2)) (of_Z 4))).
  reflexivity.
Defined.

(** A recipe without line items. *)
Lemma summarizeRecipe_no_line_items_witness :
  @summarizeRecipe (collaborators grocery fresh)
    {| recipeName := "water"; lineItems := [] |} pantry
  = (Normal {| cheapestCost := zero; nutrientsAtCheapestCost := empty |}, pantry).
Proof.
  apply (summarizeRecipe_no_line_items (H := collaborators grocery fresh)).
  reflexivity.
Defined.

(** The proteins of A and B, 5 g and 10 g, are merged into new objects:
    the pantry reads as before, and a second call shows 15 g again. *)
Lemma summarizeRecipe_repeatable_witness :
  observed (@summarizeRecipe (collaborators grocery fresh) cake pantry)
  = Normal (of_Z 8, [("Protein", Some ("Protein", Some (grams (of_Z 15))))])
  /\ (forall l u,
        pantry !! l = Some u ->
        (@summarizeRecipe (collaborators grocery fresh) cake pantry).2 !! l = Some u)
  /\ observed (@summarizeRecipe (collaborators grocery fresh) cake
                 (@summarizeRecipe (collaborators grocery fresh) cake pantry).2)
     = observed (@summarizeRecipe (collaborators grocery fresh) cake pantry).
Proof.
  split; [reflexivity|].
  apply (summarizeRecipe_repeatable (H := collaborators grocery fresh) cake pantry
           (fresh_allocates grocery) pantry_wellFormed).
Defined.

(** When [GetNutrientFactInBaseUnits] returns facts that hold the object
    they were given, the protein of B is added to the object of A in the
    pantry: A's 5 g read 15 g after the call, and a second call shows 25 g
    where the first showed 15 g. *)
Lemma second_call_differs_when_shared :
  pantry !! 0 = Some (grams (of_Z 5))
  /\ (@summarizeRecipe (collaborators grocery sharing) cake pantry).2 !! 0
     = Some (grams (of_Z 15))
  /\ observed (@summarizeRecipe (collaborators grocery sharing) cake pantry)
     = Normal (of_Z 8, [("Protein", Some ("Protein", Some (grams (of_Z 15))))])
  /\ observed (@summarizeRecipe (collaborators grocery sharing) cake
                 (@summarizeRecipe (collaborators grocery sharing) cake pantry).2)
     = Normal (of_Z 8, [("Protein", Some ("Protein", Some (grams (of_Z 25))))]).
Proof. repeat split; reflexivity. Qed.






Lemma larder_interleavings name :
  factsNamed name [protein 0; fat 1; protein 2] = factsNamed name [fat 1; protein 0; protein 2].
Proof.
  unfold factsNamed. rewrite !filter_cons, filter_nil. simpl.
  repeat case_decide; congruence.
Qed.

(** Proteins of 2^53 g and 1 g around a fat, and the same three facts with
    the fat first: the proteins come in the same order, and their total is
    the same.  Two proteins of 5 g each, in both orders: the total is the
    same. *)
Lemma totals_independent_of_interleaving_witness :
  totalOf
    (@aggregateNutrients (collaborators grocery fresh)
       [protein 0; fat 1; protein 2] (start larder)).2.(memory)
    (@aggregateNutrients (collaborators grocery fresh)
       [protein 0; fat 1; protein 2] (start larder)).2.(existingNutrientFacts)
    "Protein"
  = totalOf
      (@aggregateNutrients (collaborators grocery fresh)
         [fat 1; protein 0; protein 2] (start larder)).2.(memory)
      (@aggregateNutrients (collaborators grocery fresh)
         [fat 1; protein 0; protein 2] (start larder)).2.(existingNutrientFacts)
      "Protein"
  /\ totalOf
       (@aggregateNutrients (collaborators grocery fresh)
          [protein 0; protein 1] (start twins)).2.(memory)
       (@aggregateNutrients (collaborators grocery fresh)
          [protein 0; protein 1] (start twins)).2.(existingNutrientFacts)
       "Protein"
     = totalOf
         (@aggregateNutrients (collaborators grocery fresh)
            [protein 1; protein 0] (start twins)).2.(memory)
         (@aggregateNutrients (collaborators grocery fresh)
            [protein 1; protein 0] (start twins)).2.(existingNutrientFacts)
         "Protein".
Proof.
  split.
  - apply (proj1 (proj2 (proj2 (totals_independent_of_interleaving
                                  (H := collaborators grocery fresh))))
             larder [protein 0; fat 1; protein 2] [fat 1; protein 0; protein 2]).
    + apply fresh_allocates.
    + repeat constructor.
    + apply larder_interleavings.
    + reflexivity.
    + reflexivity.
  - apply (proj2 (proj2 (proj2 (totals_independent_of_interleaving
                                  (H := collaborators grocery fresh))))
             twins [protein 0; protein 1] [protein 1; protein 0]).
    + apply fresh_allocates.
    + repeat constructor.
    + apply Permutation_swap.
    + intros fact fact' Hin Hin' _.
      apply elem_of_cons in Hin as [->|Hin];
        [|apply list_elem_of_singleton in Hin as ->];
        (apply elem_of_cons in Hin' as [->|Hin'];
           [|apply list_elem_of_singleton in Hin' as ->]);
        reflexivity.
    + reflexivity.
    + reflexivity.
Defined.

(** Proteins of 2^53 g, 1 g and 1 g.  In this order each 1 g is lost to
    rounding and the total is 2^53 g; with the two small ones first the
    total is 2^53 + 2 g.  And when [GetNutrientFactInBaseUnits] returns
    facts that hold the object they were given, even the interleaving of
    two names matters: a fat that points to the object of the first
    protein adds 15 g after the second protein is merged and 5 g before.
    And two proteins of 5 g each, the first of them listed twice, add up
    to 15 g or to 20 g. *)
Lemma totals_depend_on_order :
  [protein 1; protein 2; protein 0] ≡ₚ [protein 0; protein 1; protein 2]
  /\ (exists st',
        @aggregateNutrients (collaborators grocery fresh)
          [protein 0; protein 1; protein 2] (start larder) = (Normal tt, st')
        /\ totalOf (memory st') (existingNutrientFacts st') "Protein"
           = Some (of_Z 9007199254740992))
  /\ (exists st',
        @aggregateNutrients (collaborators grocery fresh)
          [protein 1; protein 2; protein 0] (start larder) = (Normal tt, st')
        /\ totalOf (memory st') (existingNutrientFacts st') "Protein"
           = Some (of_Z 9007199254740994))
  /\ lt (of_Z 9007199254740992) (of_Z 9007199254740994) = true
  /\ (exists st',
        @aggregateNutrients (collaborators grocery sharing)
          [protein 0; protein 1; fat 2; fat 0] (start shelf) = (Normal tt, st')
        /\ totalOf (memory st') (existingNutrientFacts st') "Fat" = Some (of_Z 16))
  /\ (exists st',
        @aggregateNutrients (collaborators grocery sharing)
          [protein 0; fat 2; fat 0; protein 1] (start shelf) = (Normal tt, st')
        /\ totalOf (memory st') (existingNutrientFacts st') "Fat" = Some (of_Z 6))
  /\ [protein 0; protein 1; protein 0] ≡ₚ [protein 0; protein 0; protein 1]
  /\ (exists st',
        @aggregateNutrients (collaborators grocery sharing)
          [protein 0; protein 0; protein 1] (start twins) = (Normal tt, st')
        /\ totalOf (memory st') (existingNutrientFacts st') "Protein" = Some (of_Z 15))
  /\ (exists st',
        @aggregateNutrients (collaborators grocery sharing)
          [protein 0; protein 1; protein 0] (start twins) = (Normal tt, st')
        /\ totalOf (memory st') (existingNutrientFacts st') "Protein" = Some (of_Z 20)).
Proof.
  repeat apply conj.
  - change ([protein 1; protein 2] ++ [protein 0] ≡ₚ [protein 0] ++ [protein 1; protein 2]).
    apply Permutation_app_comm.
  - eexists. split; reflexivity.
  - eexists. split; reflexivity.
  - reflexivity.
  - eexists. split; reflexivity.
  - eexists. split; reflexivity.
  - constructor. apply Permutation_swap.
  - eexists. split; reflexivity.
  - eexists. split; reflexivity.
Qed.

(** C6: a product with the nutrients "10" and "9".  [sortKeys] creates the
    key "10" before the key "9", and the dictionary it returns lists "9"
    before "10": keys that spell array indices come first, by number.  As
    strings, "9" is greater than "10". *)
Theorem numeric_names_come_first :
  exists summary h',
    @summarizeRecipe (collaborators numbered fresh) dough pantry = (Normal summary, h')
    /\ sort ["10"; "9"] = ["10"; "9"]
    /\ (nutrientsAtCheapestCost summary).*1 = ["10"; "9"]
    /\ own_keys (nutrientsAtCheapestCost summary) = ["9"; "10"]
    /\ String.compare "9" "10" = Gt.
Proof. eexists _, _. repeat split; reflexivity. Qed.

End OnSamples.

(** * Further properties *)

(** ** [sortKeys] on its own *)

Section SortKeys.

Context {V : Type}.
Implicit Types (o acc : jsobject V) (ks : list string).

Lemma sortKeys_loop_get o ks acc k :
  get k (fold_left (fun result key =>
                      match get key o with
                      | Some v => set key v result
                      | None => result
                      end) ks acc)
  = match (if decide (k ∈ ks) then get k o else None) with
    | Some v => Some v
    | None => get k acc
    end.
Proof.
  revert acc. induction ks as [|k0 ks IH]; intros acc; cbn [fold_left].
  { by rewrite decide_False by apply not_elem_of_nil. }
  rewrite IH. destruct (decide (k = k0)) as [->|Hne].
  - rewrite (decide_True (P := k0 ∈ k0 :: ks)) by left.
    destruct (decide (k0 ∈ ks)); destruct (get k0 o) as [v|] eqn:Hv; try done.
    by rewrite get_set_eq.
  - destruct (decide (k ∈ ks)) as [Hin|Hnin].
    + rewrite (decide_True (P := k ∈ k0 :: ks)) by by right.
      destruct (get k o); [done|]. destruct (get k0 o); [by rewrite get_set_ne|done].
    + rewrite (decide_False (P := k ∈ k0 :: ks)).
      2: { intros [?|?]%elem_of_cons; done. }
      destruct (get k0 o); [by rewrite get_set_ne|done].
Qed.

(** But for the key ["__proto__"], a lookup in the result of [sortKeys]
    gives what it gives in the argument. *)
Lemma sortKeys_get o k : k <> "__proto__" -> get k (sortKeys o) = get k o.
Proof.
  intros Hk. rewrite sortKeys_plain, sortKeys_loop_get. unfold empty. simpl.
  destruct (decide (k ∈ filter (fun k => k <> "__proto__") (sort (own_keys o))))
    as [Hin|Hnin].
  - by destruct (get k o).
  - destruct (get k o) eqn:Hget; [|done]. destruct Hnin.
    apply list_elem_of_filter. split; [done|].
    rewrite sort_perm, own_keys_perm. apply list_elem_of_fmap.
    eexists. split; [|by apply get_Some_elem]. done.
Qed.

Lemma sortKeys_get_proto o : get "__proto__" (sortKeys o) = None.
Proof.
  rewrite sortKeys_plain, sortKeys_loop_get. rewrite decide_False; [done|].
  by intros [? _]%list_elem_of_filter.
Qed.

Lemma sortKeys_get_Some o k v : get k (sortKeys o) = Some v -> get k o = Some v.
Proof.
  destruct (decide (k = "__proto__")) as [->|Hk].
  - by rewrite sortKeys_get_proto.
  - by rewrite (sortKeys_get _ _ Hk).
Qed.

(** X1: [sortKeys] returns an object with the entries of its argument but
    the one under ["__proto__"], which it drops.  A lookup of any other
    key gives in the result what it gives in the argument, and the
    properties of the result are those of the argument that are not under
    ["__proto__"], in another order: no other entry is lost, and none is
    added or changed. *)
Theorem sortKeys_keeps_entries o :
  (forall k, k <> "__proto__" -> get k (sortKeys o) = get k o)
  /\ get "__proto__" (sortKeys o) = None
  /\ (NoDup o.*1 -> sortKeys o ≡ₚ filter (fun kv => kv.1 <> "__proto__") o).
Proof.
  split; [apply sortKeys_get|]. split; [apply sortKeys_get_proto|]. intros Hnd.
  assert (NoDup (sortKeys o).*1) as Hnd'.
  { rewrite (sortKeys_keys _ Hnd). apply NoDup_filter, sort_NoDup.
    by rewrite own_keys_perm. }
  apply NoDup_Permutation;
    [by eapply NoDup_fmap_1|by eapply NoDup_filter, NoDup_fmap_1|].
  intros [k v]. rewrite list_elem_of_filter. simpl. split.
  - intros Hin. apply get_elem_NoDup in Hin; [|done]. split.
    + intros ->. by rewrite sortKeys_get_proto in Hin.
    + by apply get_Some_elem, sortKeys_get_Some.
  - intros [Hk Hin]. apply get_Some_elem. rewrite (sortKeys_get _ _ Hk).
    by apply get_elem_NoDup.
Qed.

Lemma ascending_asym a b : ascending a b -> ascending b a -> a = b.
Proof.
  unfold ascending. intros Hab Hba.
  pose proof (string_ltb_trans _ _ _ Hab Hba) as Haa.
  by rewrite string_ltb_irrefl in Haa.
Qed.

(** A list in ascending order is its own sorting. *)
Lemma sort_sorted_id ks : StronglySorted ascending ks -> sort ks = ks.
Proof.
  intros Hks.
  assert (NoDup ks) as Hnd.
  { induction Hks as [|k ks _ IH Hall]; constructor; [|done].
    intros Hin. apply (proj1 (Forall_forall _ _) Hall) in Hin.
    unfold ascending in Hin. by rewrite string_ltb_irrefl in Hin. }
  apply (StronglySorted_unique_strong ascending).
  - intros a b _ _. apply ascending_asym.
  - by apply sort_sorted.
  - done.
  - apply sort_perm.
Qed.

Lemma sort_perm_eq ks ks' : NoDup ks -> ks ≡ₚ ks' -> sort ks = sort ks'.
Proof.
  intros Hnd Hperm.
  apply (StronglySorted_unique_strong ascending).
  - intros a b _ _. apply ascending_asym.
  - by apply sort_sorted.
  - apply sort_sorted. by rewrite <-Hperm.
  - by rewrite !sort_perm.
Qed.

Lemma fold_left_ext_in {A B} (f g : A -> B -> A) (l : list B) (a : A) :
  (forall a b, b ∈ l -> f a b = g a b) -> fold_left f l a = fold_left g l a.
Proof.
  revert a. induction l as [|b l IH]; intros a Hfg; simpl; [done|].
  rewrite Hfg by left. apply IH. intros a' b' Hb'. apply Hfg. by right.
Qed.

(** The keys of the result of [sortKeys], sorted, are the keys of the
    result. *)
Lemma sortKeys_keys_sorted o :
  NoDup o.*1 ->
  sort (own_keys (sortKeys o)) = filter (fun k => k <> "__proto__") (sort (own_keys o)).
Proof.
  intros Hnd.
  assert (NoDup (own_keys o)) as Hnd' by by rewrite own_keys_perm.
  rewrite (sort_perm_eq (own_keys (sortKeys o)) (sortKeys o).*1).
  - rewrite (sortKeys_keys _ Hnd).
    by apply sort_sorted_id, (filter_sorted (fun k => k <> "__proto__")), sort_sorted.
  - rewrite own_keys_perm, (sortKeys_keys _ Hnd). by apply NoDup_filter, sort_NoDup.
  - apply own_keys_perm.
Qed.

(** X2: [sortKeys] is idempotent: sorting the keys of an object that
    [sortKeys] returned gives that object again. *)
Theorem sortKeys_idempotent o :
  NoDup o.*1 -> sortKeys (sortKeys o) = sortKeys o.
Proof.
  intros Hnd. rewrite (sortKeys_plain (sortKeys o)), (sortKeys_keys_sorted _ Hnd).
  rewrite (filter_all (fun k => k <> "__proto__")).
  2: { apply Forall_forall. by intros k [? _]%list_elem_of_filter. }
  etrans; [|symmetry; apply sortKeys_plain]. apply fold_left_ext_in.
  intros acc k [Hk _]%list_elem_of_filter. by rewrite (sortKeys_get _ _ Hk).
Qed.

(** X3: [sortKeys] returns the keys of its argument but ["__proto__"],
    each once; when none of them spells an array index, [Object.keys]
    lists the keys of the result in ascending order. *)
Theorem sortKeys_sorts_keys o :
  NoDup o.*1 ->
  own_keys (sortKeys o) ≡ₚ filter (fun k => k <> "__proto__") (own_keys o)
  /\ (Forall (fun k => is_array_index k = false) o.*1 ->
      own_keys (sortKeys o) = filter (fun k => k <> "__proto__") (sort o.*1)
      /\ StronglySorted ascending (own_keys (sortKeys o))).
Proof.
  intros Hnd. split.
  - by rewrite (own_keys_perm (sortKeys o)), (sortKeys_keys _ Hnd), sort_perm.
  - intros Hplain. rewrite (own_keys_plain (sortKeys o)).
    + rewrite (sortKeys_keys _ Hnd), (own_keys_plain _ Hplain).
      split; [done|]. by apply filter_sorted, sort_sorted.
    + rewrite (sortKeys_keys _ Hnd). apply Forall_forall.
      intros k [_ Hk]%list_elem_of_filter. revert Hk.
      rewrite sort_perm, own_keys_perm. apply (proj1 (Forall_forall _ _) Hplain).
Qed.

End SortKeys.

(** ** Numbers that are not negative *)

Module SignFacts.

Lemma shr_1_m mrs : (0 <= shr_m mrs -> 0 <= shr_m (shr_1 mrs))%Z.
Proof. destruct mrs as [[|[p|p|]|p] r s]; simpl; lia. Qed.

Lemma iter_pos_shr_1_m p mrs :
  (0 <= shr_m mrs -> 0 <= shr_m (SpecFloat.iter_pos shr_1 p mrs))%Z.
Proof.
  revert mrs. induction p as [p IH|p IH|]; intros mrs Hm; simpl.
  - apply IH, IH, shr_1_m, Hm.
  - apply IH, IH, Hm.
  - apply shr_1_m, Hm.
Qed.

Lemma shr_fexp_m m e l :
  (0 <= m -> 0 <= shr_m (shr_fexp prec emax m e l).1)%Z.
Proof.
  intros Hm. unfold shr_fexp, shr.
  assert (0 <= shr_m (shr_record_of_loc m l))%Z as Hr.
  { by destruct l as [|[]]. }
  destruct (_ - _)%Z; simpl; [done| |done].
  by apply iter_pos_shr_1_m.
Qed.

Lemma round_nearest_even_m m l : (0 <= m -> 0 <= round_nearest_even m l)%Z.
Proof.
  intros Hm. destruct l as [|[]]; simpl; try lia.
  destruct (Z.even m); lia.
Qed.

(** Rounding a mantissa that is not negative gives a number of the sign
    asked for. *)
Lemma binary_round_aux_signed s m e l :
  (0 <= m)%Z -> signed s (binary_round_aux prec emax s m e l).
Proof.
  intros Hm. unfold binary_round_aux.
  pose proof (shr_fexp_m m e l Hm) as H1.
  destruct (shr_fexp prec emax m e l) as [mrs1 e1]. simpl in H1.
  pose proof (shr_fexp_m _ e1 loc_Exact
                (round_nearest_even_m _ (loc_of_shr_record mrs1) H1)) as H2.
  destruct (shr_fexp prec emax _ e1 loc_Exact) as [mrs2 e2]. simpl in H2.
  destruct (shr_m mrs2) as [|p|p]; simpl; [done| |lia].
  by destruct (_ <=? _)%Z.
Qed.

Lemma binary_round_signed s m e : signed s (binary_round prec emax s m e).
Proof.
  unfold binary_round. destruct (shl_align _ _ _) as [mz ez].
  by apply binary_round_aux_signed.
Qed.

Lemma signed_not_lt_zero x : signed false x -> lt x zero = false.
Proof. by destruct x as [[]|[]| |[] ? ?]. Qed.

Lemma signed_le_zero x : signed false x -> le zero x = true.
Proof. by destruct x as [[]|[]| |[] ? ?]. Qed.

(** The product of two numbers that are not negative is not negative; it
    is [NaN] for [Infinity * 0]. *)
Lemma mul_not_negative x y :
  lt x zero = false -> lt y zero = false -> lt (mul x y) zero = false.
Proof.
  destruct x as [[]|[]| |[] mx ex]; destruct y as [[]|[]| |[] my ey];
    try done.
  intros _ _. apply signed_not_lt_zero. unfold mul, SFmul.
  by apply binary_round_aux_signed.
Qed.

(** The sum of two numbers that are zero or more is zero or more. *)
Lemma add_le_zero x y :
  le zero x = true -> le zero y = true -> le zero (add x y) = true.
Proof.
  destruct x as [[]|[]| |[] mx ex]; destruct y as [[]|[]| |[] my ey];
    try done.
  intros _ _. apply signed_le_zero. unfold add, SFadd.
  simpl cond_Zopp. apply binary_round_signed.
Qed.

End SignFacts.

(** ** Failures of the imported functions in [findLowestCostProduct] *)

Section LowestCostFailures.

Context `{Collaborators}.

Lemma call_outcome {S A} (r : external A) (s : S) :
  call r s = (match r with
              | Returns a => Normal a
              | Raises message => Throw (CollaboratorError message)
              end, s).
Proof. by destruct r. Qed.

Lemma realCostOf_cases lineItem supplierProduct :
  realCostOf lineItem supplierProduct =
  match GetCostPerBaseUnit supplierProduct with
  | Raises message => Throw (CollaboratorError message)
  | Returns baseCost =>
      match GetBaseUoM (uomType (unitOfMeasure lineItem)) with
      | Raises message => Throw (CollaboratorError message)
      | Returns base =>
          match ConvertUnits (unitOfMeasure lineItem) (uomName base) (uomType base) with
          | Raises message => Throw (CollaboratorError message)
          | Returns convertedUoM => Normal (mul baseCost (uomAmount convertedUoM))
          end
      end
  end.
Proof.
  unfold realCostOf, calculateRealCost, bind.
  rewrite call_outcome. destruct (GetCostPerBaseUnit supplierProduct); [|done].
  rewrite call_outcome. destruct (GetBaseUoM _); [|done].
  rewrite call_outcome. by destruct (ConvertUnits _ _ _).
Qed.

Lemma realCostOf_Throw lineItem supplierProduct e :
  realCostOf lineItem supplierProduct = Throw e ->
  exists message, e = CollaboratorError message.
Proof.
  rewrite realCostOf_cases.
  destruct (GetCostPerBaseUnit _); [|intros [= <-]; eauto].
  destruct (GetBaseUoM _); [|intros [= <-]; eauto].
  destruct (ConvertUnits _ _ _); [done|intros [= <-]; eauto].
Qed.

Lemma realCosts_Throw lineItem offs e :
  realCosts lineItem offs = Throw e <->
  exists before o after,
    offs = before ++ o :: after
    /\ (forall o', o' ∈ before -> exists c, realCostOf lineItem o'.2 = Normal c)
    /\ realCostOf lineItem o.2 = Throw e.
Proof.
  induction offs as [|[product supplierProduct] offs IH]; simpl.
  { split; [done|]. intros (before & o & after & Heq & _). by destruct before. }
  destruct (realCostOf lineItem supplierProduct) as [c|e'] eqn:Hc.
  - assert (match realCosts lineItem offs with
            | Throw e0 => Throw e0
            | Normal cs => Normal ((product, c) :: cs)
            end = Throw e <-> realCosts lineItem offs = Throw e) as ->.
    { by destruct (realCosts lineItem offs). }
    rewrite IH. split.
    + intros (before & o & after & -> & Hbefore & Ho).
      exists ((product, supplierProduct) :: before), o, after.
      split; [done|]. split; [|done].
      intros o' [->|Ho']%elem_of_cons; [eauto|by apply Hbefore].
    + intros (before & o & after & Heq & Hbefore & Ho).
      destruct before as [|o0 before]; simplify_eq/=; [congruence|].
      exists before, o, after. split; [done|]. split; [|done].
      intros o' Ho'. apply Hbefore. by right.
  - split.
    + intros [= ->]. exists [], (product, supplierProduct), offs.
      split; [done|]. split; [|done]. by intros o' ?%elem_of_nil.
    + intros (before & o & after & Heq & Hbefore & Ho).
      destruct before as [|o0 before]; simplify_eq/=; [congruence|].
      destruct (Hbefore (product, supplierProduct)) as [c Hc']; [left|].
      simpl in Hc'. congruence.
Qed.

Lemma findLowestCostProduct_Throw lineItem e :
  findLowestCostProduct lineItem = Throw e ->
  e = NoCandidatesError \/ exists message, e = CollaboratorError message.
Proof.
  rewrite findLowestCostProduct_spec.
  destruct (realCosts lineItem (offers lineItem)) as [cs|e'] eqn:Hcs.
  - simpl. destruct (lowestCostProduct _); [done|]. intros [= <-]. by left.
  - intros [= ->]. apply realCosts_Throw in Hcs as (_ & o & _ & _ & _ & Ho).
    right. by eapply realCostOf_Throw.
Qed.

(** X4: [findLowestCostProduct] fails with the failure of an imported
    function exactly when some offer's cost cannot be computed, and then
    with the failure of the first such offer in the order of the loops,
    whatever the other offers cost; a missing object is never the
    cause. *)
Theorem findLowestCostProduct_first_failure lineItem :
  (forall message,
      findLowestCostProduct lineItem = Throw (CollaboratorError message) <->
      exists before o after,
        offers lineItem = before ++ o :: after
        /\ (forall o', o' ∈ before -> exists c, realCostOf lineItem o'.2 = Normal c)
        /\ realCostOf lineItem o.2 = Throw (CollaboratorError message))
  /\ findLowestCostProduct lineItem <> Throw TypeError.
Proof.
  rewrite findLowestCostProduct_spec. split.
  - intros message. rewrite <-realCosts_Throw.
    destruct (realCosts lineItem (offers lineItem)) as [cs|e].
    + simpl. split; [|done]. by destruct (lowestCostProduct _).
    + split; by intros [= ->].
  - intros Hthrow. rewrite <-findLowestCostProduct_spec in Hthrow.
    by apply findLowestCostProduct_Throw in Hthrow as [?|[? ?]].
Qed.

End LowestCostFailures.

(** ** Costs that are not negative *)

Section Costs.

Context `{Collaborators}.

(** X5: [calculateRealCost] computes a cost that is not negative from a
    price that is not negative, when the converted amount is not negative;
    it leaves the state as it is. *)
Theorem calculateRealCost_not_negative {S} realUoM basePrice (s : S) cost s' :
  lt basePrice zero = false ->
  (forall name type convertedUoM,
      ConvertUnits realUoM name type = Returns convertedUoM ->
      lt (uomAmount convertedUoM) zero = false) ->
  calculateRealCost realUoM basePrice s = (Normal cost, s') ->
  lt cost zero = false /\ s' = s.
Proof.
  intros Hprice Hamount. unfold calculateRealCost, bind.
  rewrite call_outcome. destruct (GetBaseUoM _) as [base|]; [|done].
  rewrite call_outcome. destruct (ConvertUnits _ _ _) as [convertedUoM|] eqn:Hc; [|done].
  intros [= <- <-]. split; [|done].
  apply SignFacts.mul_not_negative; [done|]. by eapply Hamount.
Qed.

Lemma realCostOf_not_negative lineItem supplierProduct cost :
  (forall price,
      GetCostPerBaseUnit supplierProduct = Returns price -> lt price zero = false) ->
  (forall name type convertedUoM,
      ConvertUnits (unitOfMeasure lineItem) name type = Returns convertedUoM ->
      lt (uomAmount convertedUoM) zero = false) ->
  realCostOf lineItem supplierProduct = Normal cost ->
  lt cost zero = false.
Proof.
  intros Hprice Hamount. rewrite realCostOf_cases.
  destruct (GetCostPerBaseUnit _) as [price|] eqn:Hp; [|done].
  destruct (GetBaseUoM _) as [base|]; [|done].
  destruct (ConvertUnits _ _ _) as [convertedUoM|] eqn:Hc; [|done].
  intros [= <-]. apply SignFacts.mul_not_negative; [by eapply Hprice|by eapply Hamount].
Qed.

Lemma fold_add_le_zero (costs : list number) (total : number) :
  le zero total = true ->
  Forall (fun cost => le zero cost = true) costs ->
  le zero (fold_left add costs total) = true.
Proof.
  intros Htotal Hcosts. revert total Htotal.
  induction Hcosts as [|cost costs Hcost _ IH]; intros total Htotal; simpl; [done|].
  by apply IH, SignFacts.add_le_zero.
Qed.

(** X6: when the imported functions give no negative price for an offer
    of the recipe and no negative amount for a line item of the recipe,
    the cost [summarizeRecipe] returns is a number that is zero or more:
    it is neither negative nor [NaN]. *)
Theorem cheapestCost_not_negative recipe h summary h' :
  (forall lineItem o price,
      lineItem ∈ lineItems recipe ->
      o ∈ offers lineItem ->
      GetCostPerBaseUnit o.2 = Returns price ->
      lt price zero = false) ->
  (forall lineItem name type convertedUoM,
      lineItem ∈ lineItems recipe ->
      ConvertUnits (unitOfMeasure lineItem) name type = Returns convertedUoM ->
      lt (uomAmount convertedUoM) zero = false) ->
  summarizeRecipe recipe h = (Normal summary, h') ->
  le zero (cheapestCost summary) = true.
Proof.
  intros Hprice Hamount. unfold summarizeRecipe.
  destruct (forEach summarizeLineItem (lineItems recipe) _) as [[[]|e] st] eqn:Hloop; [|done].
  intros [= <- <-]. simpl.
  apply summarizeLineItems_Normal in Hloop as (winners & Hwinners & -> & _).
  apply fold_add_le_zero; [done|]. simpl.
  apply Forall_fmap, Forall_forall. intros [product cost] Hin. simpl.
  apply list_elem_of_lookup in Hin as [i Hi].
  destruct (Forall2_lookup_r _ _ _ i _ Hwinners Hi) as (lineItem & Hitem & Hwin).
  apply list_elem_of_lookup_2 in Hitem.
  apply findLowestCostProduct_Normal in Hwin
    as (before & supplierProduct & after & Hoffers & Hcost & Hlt & _).
  apply NumberFacts.not_lt_le;
    [|by eapply NumberFacts.lt_Infinity_not_nan|done].
  eapply realCostOf_not_negative; [| |exact Hcost].
  - intros price. apply (Hprice lineItem (product, supplierProduct)); [done|].
    rewrite Hoffers. apply elem_of_app. right. left.
  - intros name type convertedUoM. by apply Hamount.
Qed.

End Costs.

(** ** The order in which [aggregateNutrients] creates keys *)

Section CreationOrder.

Lemma firstOccurrences_seen seen1 seen2 names :
  (forall name, name ∈ seen1 <-> name ∈ seen2) ->
  firstOccurrences seen1 names = firstOccurrences seen2 names.
Proof.
  revert seen1 seen2. induction names as [|name names IH]; intros seen1 seen2 Hseen; simpl; [done|].
  destruct (decide (name ∈ seen1)) as [Hin|Hnin].
  - rewrite decide_True by by apply Hseen. by apply IH.
  - rewrite decide_False by by rewrite <-Hseen. f_equal. apply IH.
    intros name'. rewrite !elem_of_cons, Hseen. done.
Qed.

Lemma firstOccurrences_elem seen names name :
  name ∈ firstOccurrences seen names <-> name ∈ names /\ name ∉ seen.
Proof.
  revert seen. induction names as [|name0 names IH]; intros seen; simpl.
  { split; [by intros ?%elem_of_nil|by intros [?%elem_of_nil _]]. }
  destruct (decide (name0 ∈ seen)) as [Hin|Hnin].
  - rewrite IH, elem_of_cons. split.
    + intros [? ?]. split; [by right|done].
    + intros [[->|?] ?]; done.
  - rewrite !elem_of_cons, IH, elem_of_cons. split.
    + intros [->|[? ?]]; [by split; [left|]|]. split; [by right|tauto].
    + intros [[->|?] ?]; [by left|].
      destruct (decide (name = name0)) as [->|?]; [by left|right; tauto].
Qed.

Lemma firstOccurrences_NoDup seen names : NoDup (firstOccurrences seen names).
Proof.
  revert seen. induction names as [|name names IH]; intros seen; simpl; [constructor|].
  destruct (decide (name ∈ seen)); [apply IH|].
  constructor; [|apply IH]. rewrite firstOccurrences_elem.
  intros [_ Hnot]. apply Hnot. by left.
Qed.

Context `{Collaborators}.

Lemma firstOccurrences_cons seen name names :
  seen ++ firstOccurrences seen (name :: names)
  = (seen ++ firstOccurrences seen [name])
      ++ firstOccurrences (seen ++ firstOccurrences seen [name]) names.
Proof.
  simpl. destruct (decide (name ∈ seen)) as [Hin|Hnin].
  - by rewrite !app_nil_r.
  - rewrite <-app_assoc. simpl. do 2 f_equal. apply firstOccurrences_seen.
    intros name'. rewrite elem_of_cons, elem_of_app, list_elem_of_singleton. tauto.
Qed.

Lemma aggregateFact_keys fact st st' :
  aggregateFact fact st = (Normal tt, st') ->
  (existingNutrientFacts st').*1
  = (existingNutrientFacts st).*1
    ++ firstOccurrences (existingNutrientFacts st).*1 [nutrientName fact]
  /\ (forall k existing,
        get k (existingNutrientFacts st) = Some existing ->
        get k (existingNutrientFacts st') = Some existing).
Proof.
  rewrite aggregateFact_cases.
  destruct (callGetNutrientFactInBaseUnits fact st) as [[b|e] st1] eqn:Hconv; [|done].
  destruct (get (nutrientName fact) (existingNutrientFacts st)) as [e|] eqn:Hget.
  - destruct (memory st1 !! quantityAmount e), (memory st1 !! quantityAmount b);
      intros [= <-]; simpl. split; [|done].
    rewrite decide_True, app_nil_r; [done|].
    apply get_Some_elem in Hget. apply list_elem_of_fmap. by exists (nutrientName fact, e).
  - destruct (inherited (nutrientName fact)); [done|].
    intros [= <-]. simpl. split.
    + rewrite decide_False by by apply get_None. by apply set_keys_new.
    + intros k existing Hk. rewrite get_set_ne; [done|]. congruence.
Qed.

(** X7: [aggregateNutrients] keeps the keys of the dictionary it is given
    where they are, with the fact object each one holds, and creates a key
    for every other name among the new facts, in the order in which those
    names occur first. *)
Theorem aggregateNutrients_creation_order facts st st' :
  aggregateNutrients facts st = (Normal tt, st') ->
  (existingNutrientFacts st').*1
  = (existingNutrientFacts st).*1
    ++ firstOccurrences (existingNutrientFacts st).*1 (nutrientName <$> facts)
  /\ (forall k existing,
        get k (existingNutrientFacts st) = Some existing ->
        get k (existingNutrientFacts st') = Some existing).
Proof.
  unfold aggregateNutrients. revert st.
  induction facts as [|fact facts IH]; intros st; cbn [forEach].
  { unfold ret. intros [= <-]. simpl. by rewrite app_nil_r. }
  unfold bind. destruct (aggregateFact fact st) as [[[]|e] st1] eqn:Hstep; [|done].
  intros Hrest. apply aggregateFact_keys in Hstep as [Hkeys1 Hold1].
  apply IH in Hrest as [Hkeys Hold]. split; [|by auto].
  rewrite fmap_cons, firstOccurrences_cons, <-Hkeys1. done.
Qed.

End CreationOrder.

(** ** References that hold an object *)

Section References.

Context `{Collaborators}.

Lemma callGetNutrientFactInBaseUnits_valid fact st r st1 :
  quantityAmount fact < length (memory st) ->
  callGetNutrientFactInBaseUnits fact st = (r, st1) ->
  r <> Throw TypeError
  /\ length (memory st) <= length (memory st1)
  /\ (forall baseUnitFact,
        r = Normal baseUnitFact -> quantityAmount baseUnitFact < length (memory st1)).
Proof.
  intros Hfact. unfold callGetNutrientFactInBaseUnits, bind, read, write, ret, throw, call.
  simpl. destruct (lookup_lt_is_Some_2 _ _ Hfact) as [u ->].
  destruct (GetNutrientFactInBaseUnits (nutrientName fact) u) as [[name [|u']]|m];
    simpl; intros [= <- <-]; simpl; (split; [done|]).
  - split; [done|]. by intros b [= <-].
  - rewrite length_app. simpl. split; [lia|]. intros b [= <-]. simpl. lia.
  - done.
Qed.

Lemma aggregateFact_valid fact st r st' :
  quantityAmount fact < length (memory st) ->
  Forall (fun kf => quantityAmount kf.2 < length (memory st)) (existingNutrientFacts st) ->
  aggregateFact fact st = (r, st') ->
  (r = Throw TypeError -> inherited (nutrientName fact) = true)
  /\ length (memory st) <= length (memory st')
  /\ Forall (fun kf => quantityAmount kf.2 < length (memory st')) (existingNutrientFacts st').
Proof.
  intros Hfact Hvalid. rewrite aggregateFact_cases.
  destruct (callGetNutrientFactInBaseUnits fact st) as [[b|e] st1] eqn:Hconv.
  2: { intros [= <- <-].
       pose proof (callGetNutrientFactInBaseUnits_dictionary _ _ _ _ Hconv) as Hdict.
       apply callGetNutrientFactInBaseUnits_valid in Hconv as (Hr & Hlen & _); [|done].
       split; [intros [= ->]; by destruct Hr|]. split; [done|]. rewrite Hdict.
       eapply Forall_impl; [exact Hvalid|]. simpl. intros; lia. }
  pose proof (callGetNutrientFactInBaseUnits_dictionary _ _ _ _ Hconv) as Hdict.
  apply callGetNutrientFactInBaseUnits_valid in Hconv as (_ & Hlen & Hb); [|done].
  specialize (Hb b eq_refl).
  destruct (get (nutrientName fact) (existingNutrientFacts st)) as [e|] eqn:Hget.
  - assert (quantityAmount e < length (memory st1)) as He.
    { apply get_Some_elem in Hget.
      apply (proj1 (Forall_forall _ _) Hvalid) in Hget. simpl in Hget. lia. }
    destruct (lookup_lt_is_Some_2 _ _ He) as [t ->].
    destruct (lookup_lt_is_Some_2 _ _ Hb) as [s ->].
    intros [= <- <-]. simpl. rewrite length_insert.
    split; [done|]. split; [done|].
    eapply Forall_impl; [exact Hvalid|]. simpl. intros; lia.
  - destruct (inherited (nutrientName fact)).
    { intros [= <- <-]. split; [done|]. split; [done|]. rewrite Hdict.
      eapply Forall_impl; [exact Hvalid|]. simpl. intros; lia. }
    intros [= <- <-]. simpl. split; [done|]. split; [done|].
    apply Forall_forall. intros kf [->|Hin]%set_elem; [done|].
    apply (proj1 (Forall_forall _ _) Hvalid) in Hin. lia.
Qed.

Lemma aggregateNutrients_valid facts st r st' :
  Forall (fun fact => quantityAmount fact < length (memory st)) facts ->
  Forall (fun kf => quantityAmount kf.2 < length (memory st)) (existingNutrientFacts st) ->
  aggregateNutrients facts st = (r, st') ->
  (r = Throw TypeError ->
   exists fact, fact ∈ facts /\ inherited (nutrientName fact) = true)
  /\ length (memory st) <= length (memory st')
  /\ Forall (fun kf => quantityAmount kf.2 < length (memory st')) (existingNutrientFacts st').
Proof.
  unfold aggregateNutrients. revert st.
  induction facts as [|fact facts IH]; intros st Hfacts Hvalid; cbn [forEach].
  { unfold ret. by intros [= <- <-]. }
  apply Forall_cons in Hfacts as [Hfact Hfacts].
  unfold bind. destruct (aggregateFact fact st) as [r1 st1] eqn:Hstep.
  apply aggregateFact_valid in Hstep as (Hr1 & Hlen1 & Hvalid1); [|done..].
  destruct r1 as [[]|e].
  - intros Hrest. apply IH in Hrest as (Hr & Hlen & Hvalid'); [|..|done].
    + split; [|split; [lia|done]].
      intros Hthrow. destruct (Hr Hthrow) as (fact' & Hin & Hname).
      exists fact'. split; [by right|done].
    + eapply Forall_impl; [exact Hfacts|]. simpl. intros; lia.
  - intros [= <- <-]. split; [|done].
    intros Hthrow. exists fact. split; [left|by apply Hr1].
Qed.

Lemma wellFormed_longer h h' : wellFormed h -> length h <= length h' -> wellFormed h'.
Proof.
  intros Hwf Hlen name product fact Hproduct Hfact.
  specialize (Hwf name product fact Hproduct Hfact). lia.
Qed.

Lemma summarizeLineItems_valid items st r st' :
  wellFormed (store st) ->
  Forall (fun kf => quantityAmount kf.2 < length (store st)) (totalNutrients st) ->
  forEach summarizeLineItem items st = (r, st') ->
  (r = Throw TypeError ->
   exists lineItem product cost fact,
     lineItem ∈ items
     /\ findLowestCostProduct lineItem = Normal (product, cost)
     /\ fact ∈ nutrientFacts product
     /\ inherited (nutrientName fact) = true)
  /\ length (store st) <= length (store st')
  /\ Forall (fun kf => quantityAmount kf.2 < length (store st')) (totalNutrients st').
Proof.
  revert st. induction items as [|lineItem items IH]; intros st Hwf Hvalid; cbn [forEach].
  { unfold ret. by intros [= <- <-]. }
  unfold bind at 1, summarizeLineItem at 1.
  destruct (findLowestCostProduct lineItem) as [[product cost]|e] eqn:Hwin.
  2: { intros [= <- <-]. split; [|done].
       intros [= ->]. by apply findLowestCostProduct_Throw in Hwin as [?|[? ?]]. }
  destruct (aggregateNutrients (nutrientFacts product) _) as [r1 t] eqn:Hagg.
  apply aggregateNutrients_valid in Hagg as (Hr1 & Hlen1 & Hvalid1);
    [|by eapply winner_wellFormed|done].
  simpl in Hlen1. destruct r1 as [[]|e].
  - intros Hrest. apply IH in Hrest as (Hr & Hlen & Hvalid'); simpl in *.
    + split; [|split; [lia|done]].
      intros Hthrow.
      destruct (Hr Hthrow) as (lineItem' & product' & cost' & fact & Hin & ?).
      exists lineItem', product', cost', fact. split; [by right|done].
    + by eapply wellFormed_longer.
    + done.
  - intros [= <- <-]. simpl. split; [|done].
    intros Hthrow. destruct (Hr1 Hthrow) as (fact & Hin & Hname).
    exists lineItem, product, cost, fact. split; [left|done].
Qed.

Lemma summarizeRecipe_valid recipe h r h' :
  wellFormed h ->
  summarizeRecipe recipe h = (r, h') ->
  (r = Throw TypeError ->
   exists lineItem product cost fact,
     lineItem ∈ lineItems recipe
     /\ findLowestCostProduct lineItem = Normal (product, cost)
     /\ fact ∈ nutrientFacts product
     /\ inherited (nutrientName fact) = true)
  /\ length h <= length h'
  /\ (forall summary k fact,
        r = Normal summary ->
        get k (nutrientsAtCheapestCost summary) = Some fact ->
        quantityAmount fact < length h').
Proof.
  intros Hwf. unfold summarizeRecipe.
  destruct (forEach summarizeLineItem (lineItems recipe) _) as [r1 st] eqn:Hloop.
  apply summarizeLineItems_valid in Hloop as (Hr1 & Hlen & Hvalid); simpl in *;
    [|done|constructor].
  destruct r1 as [[]|e]; intros [= <- <-].
  - split; [done|]. split; [done|]. intros summary k fact [= <-]. simpl.
    intros Hget%sortKeys_get_Some%get_Some_elem.
    by apply (proj1 (Forall_forall _ _) Hvalid) in Hget.
  - split; [|split; [done|by intros summary k fact [=]]].
    intros [= ->]. by apply Hr1.
Qed.

(** X8: on a heap that holds the objects of the catalog, [summarizeRecipe]
    ends with no exception but the one of [findLowestCostProduct], those
    of the imported functions, and a [TypeError]; and with a [TypeError]
    only when a fact of a cheapest product bears the name of a member
    every object inherits from [Object.prototype]: it never reads through
    a reference that holds no object. *)
Theorem summarizeRecipe_exceptions recipe h e h' :
  wellFormed h ->
  summarizeRecipe recipe h = (Throw e, h') ->
  e = NoCandidatesError
  \/ (exists message, e = CollaboratorError message)
  \/ (e = TypeError
      /\ exists lineItem product cost fact,
           lineItem ∈ lineItems recipe
           /\ findLowestCostProduct lineItem = Normal (product, cost)
           /\ fact ∈ nutrientFacts product
           /\ inherited (nutrientName fact) = true).
Proof.
  intros Hwf Hrun. apply summarizeRecipe_valid in Hrun as (Hr & _); [|done].
  destruct e as [|message|]; [by left|right; left; by exists message|].
  right; right. split; [done|]. by apply Hr.
Qed.

(** X9: [summarizeRecipe] removes no object: the heap it leaves still
    holds the objects of the catalog, and every fact of the summary it
    returns refers to an object of that heap. *)
Theorem summarizeRecipe_keeps_objects recipe h r h' :
  wellFormed h ->
  summarizeRecipe recipe h = (r, h') ->
  wellFormed h'
  /\ (forall summary k fact,
        r = Normal summary ->
        get k (nutrientsAtCheapestCost summary) = Some fact ->
        is_Some (h' !! quantityAmount fact)).
Proof.
  intros Hwf Hrun. apply summarizeRecipe_valid in Hrun as (_ & Hlen & Hfacts); [|done].
  split; [by eapply wellFormed_longer|].
  intros summary k fact Hr Hget. apply lookup_lt_is_Some_2. by eapply Hfacts.
Qed.

End References.

(** ** What the summary holds *)

Section SummaryContents.

Context `{Collaborators}.

Lemma aggregateNutrients_key_set facts st st' k :
  aggregateNutrients facts st = (Normal tt, st') ->
  k ∈ (existingNutrientFacts st').*1
  <-> k ∈ (existingNutrientFacts st).*1 \/ k ∈ nutrientName <$> facts.
Proof.
  unfold aggregateNutrients. revert st.
  induction facts as [|fact facts IH]; intros st; cbn [forEach].
  { unfold ret. intros [= <-]. rewrite fmap_nil, elem_of_nil. tauto. }
  unfold bind. destruct (aggregateFact fact st) as [[[]|e] st1] eqn:Hstep; [|done].
  intros Hrest. apply aggregateFact_keys in Hstep as [Hkeys1 _].
  rewrite (IH _ Hrest), Hkeys1, elem_of_app, firstOccurrences_elem,
    list_elem_of_singleton, fmap_cons, elem_of_cons.
  destruct (decide (k ∈ (existingNutrientFacts st).*1)); tauto.
Qed.

(** The key ["__proto__"] is never created. *)
Lemma aggregateFact_no_proto fact st r st' :
  "__proto__" ∉ (existingNutrientFacts st).*1 ->
  aggregateFact fact st = (r, st') ->
  "__proto__" ∉ (existingNutrientFacts st').*1.
Proof.
  intros Hproto. rewrite aggregateFact_cases.
  destruct (callGetNutrientFactInBaseUnits fact st) as [[b|e] st1] eqn:Hconv.
  2: { intros [= <- <-]. by rewrite (callGetNutrientFactInBaseUnits_dictionary _ _ _ _ Hconv). }
  pose proof (callGetNutrientFactInBaseUnits_dictionary _ _ _ _ Hconv) as Hdict.
  destruct (get (nutrientName fact) (existingNutrientFacts st)) as [e|] eqn:Hget.
  - destruct (memory st1 !! quantityAmount e), (memory st1 !! quantityAmount b);
      intros [= <- <-]; simpl; by rewrite ?Hdict.
  - destruct (inherited (nutrientName fact)) eqn:Hinherited.
    { intros [= <- <-]. by rewrite Hdict. }
    intros [= <- <-]. simpl. rewrite (set_keys_new _ _ _ Hget).
    rewrite not_elem_of_app, list_elem_of_singleton. split; [done|].
    intros Heq. by rewrite <-Heq, inherited_proto in Hinherited.
Qed.

Lemma aggregateNutrients_no_proto facts st r st' :
  "__proto__" ∉ (existingNutrientFacts st).*1 ->
  aggregateNutrients facts st = (r, st') ->
  "__proto__" ∉ (existingNutrientFacts st').*1.
Proof.
  unfold aggregateNutrients. revert st.
  induction facts as [|fact facts IH]; intros st Hproto; cbn [forEach].
  { unfold ret. by intros [= <- <-]. }
  unfold bind. destruct (aggregateFact fact st) as [[[]|e] st1] eqn:Hstep.
  - apply IH. by eapply aggregateFact_no_proto.
  - intros [= <- <-]. by eapply aggregateFact_no_proto.
Qed.

(** [sortKeys] keeps every entry of an object without the key
    ["__proto__"]. *)
Lemma sortKeys_get_all {V} (o : jsobject V) k :
  "__proto__" ∉ o.*1 -> get k (sortKeys o) = get k o.
Proof.
  intros Hproto. destruct (decide (k = "__proto__")) as [->|Hk].
  - rewrite sortKeys_get_proto. symmetry. by apply get_None.
  - by apply sortKeys_get.
Qed.

Lemma winners_wellFormed h (items : list RecipeLineItem) (winners : list (Product * number)) :
  wellFormed h ->
  Forall2 (fun lineItem winner => findLowestCostProduct lineItem = Normal winner)
          items winners ->
  Forall (fun fact => quantityAmount fact < length h)
         (winner ← winners; nutrientFacts winner.1).
Proof.
  intros Hwf Hwinners.
  induction Hwinners as [|lineItem [product cost] items winners Hwin _ IH]; [constructor|].
  rewrite bind_cons. apply Forall_app. split; [|done].
  by eapply winner_wellFormed.
Qed.

(** X10: when the conversion allocates its result, the amount the summary
    holds for a nutrient is the sum, added from the left, of the converted
    amounts of the facts of that name, over the cheapest products in the
    order of the line items; the amounts are those the heap held before
    the call. *)
Theorem summarizeRecipe_totals recipe h summary h' :
  allocatesResults ->
  wellFormed h ->
  summarizeRecipe recipe h = (Normal summary, h') ->
  exists winners,
    Forall2 (fun lineItem winner => findLowestCostProduct lineItem = Normal winner)
            (lineItems recipe) winners
    /\ forall name,
         totalOf h' (nutrientsAtCheapestCost summary) name
         = leftSum (baseAmounts h name (winner ← winners; nutrientFacts winner.1)).
Proof.
  intros Halloc Hwf. unfold summarizeRecipe.
  destruct (forEach summarizeLineItem (lineItems recipe) _) as [[[]|e] st] eqn:Hloop; [|done].
  intros [= <- <-].
  apply summarizeLineItems_Normal in Hloop as (winners & Hwinners & _ & Hagg).
  exists winners. split; [done|]. intros name. cbn [nutrientsAtCheapestCost].
  unfold totalOf. rewrite sortKeys_get_all.
  - apply (totals_by_name h _ _ name Halloc) in Hagg; [done|].
    by eapply winners_wellFormed.
  - apply aggregateNutrients_no_proto in Hagg; [done|]. apply not_elem_of_nil.
Qed.

(** X11: the summary has one key for every nutrient name among the facts
    of the cheapest products, and no other; when none of these names spells
    an array index, [Object.keys] lists them in ascending order. *)
Theorem summarizeRecipe_keys recipe h summary h' :
  summarizeRecipe recipe h = (Normal summary, h') ->
  exists winners,
    Forall2 (fun lineItem winner => findLowestCostProduct lineItem = Normal winner)
            (lineItems recipe) winners
    /\ NoDup (own_keys (nutrientsAtCheapestCost summary))
    /\ (forall k,
          k ∈ own_keys (nutrientsAtCheapestCost summary)
          <-> k ∈ nutrientName <$> (winner ← winners; nutrientFacts winner.1))
    /\ (Forall (fun k => is_array_index k = false)
               (nutrientName <$> (winner ← winners; nutrientFacts winner.1)) ->
        StronglySorted ascending (own_keys (nutrientsAtCheapestCost summary))).
Proof.
  intros Hrun. pose proof Hrun as Hrun'. unfold summarizeRecipe in Hrun.
  destruct (forEach summarizeLineItem (lineItems recipe) _) as [[[]|e] st] eqn:Hloop; [|done].
  injection Hrun as <- <-.
  assert (NoDup (totalNutrients st).*1) as Hnd.
  { eapply summarizeLineItems_keys_NoDup; [|exact Hloop]. constructor. }
  apply summarizeLineItems_Normal in Hloop as (winners & Hwinners & _ & Hagg).
  exists winners. split; [done|].
  assert ("__proto__" ∉ (totalNutrients st).*1) as Hproto.
  { apply aggregateNutrients_no_proto in Hagg; [done|]. apply not_elem_of_nil. }
  assert (forall k,
             k ∈ own_keys (sortKeys (totalNutrients st))
             <-> k ∈ nutrientName <$> (winner ← winners; nutrientFacts winner.1)) as Hkeys.
  { intros k.
    rewrite own_keys_perm, (sortKeys_keys_all _ Hnd Hproto), sort_perm, own_keys_perm.
    rewrite (aggregateNutrients_key_set _ _ _ k Hagg).
    cbn [existingNutrientFacts totalNutrients]. unfold empty.
    rewrite fmap_nil, elem_of_nil. tauto. }
  cbn [nutrientsAtCheapestCost] in *. split; [|split; [done|]].
  - rewrite own_keys_perm, (sortKeys_keys_all _ Hnd Hproto). apply sort_NoDup.
    by rewrite own_keys_perm.
  - intros Hplain. apply (summarizeRecipe_keys_ascending _ _ _ _ Hrun').
    cbn [nutrientsAtCheapestCost]. apply Forall_forall. intros k Hk%Hkeys.
    by apply (proj1 (Forall_forall _ _) Hplain).
Qed.

End SummaryContents.

(** ** The script *)

Section ScriptProperties.

Context `{Collaborators}.

Lemma summaryOnValues_extend h h' recipe :
  wellFormed h -> h `prefix_of` h' ->
  summaryOnValues h' recipe = summaryOnValues h recipe.
Proof.
  intros Hwf Hprefix. unfold summaryOnValues.
  by rewrite (summarizeValues_extend h h').
Qed.

(** What a call shows its caller does not depend on what was allocated
    before it. *)
Lemma observed_extend h h' recipe :
  allocatesResults -> wellFormed h -> h `prefix_of` h' ->
  observed (summarizeRecipe recipe h') = observed (summarizeRecipe recipe h).
Proof.
  intros Halloc Hwf Hprefix.
  destruct (summarizeRecipe_refines recipe h Halloc Hwf) as [_ ->].
  destruct (summarizeRecipe_refines recipe h' Halloc (wellFormed_extend _ _ Hwf Hprefix))
    as [_ ->].
  by apply summaryOnValues_extend.
Qed.

Lemma entries_extend h h' (o : jsobject NutrientFact) :
  (forall k fact, get k o = Some fact -> quantityAmount fact < length h) ->
  h `prefix_of` h' ->
  entries h' o = entries h o.
Proof.
  intros Hvalid Hprefix. unfold entries. apply list_fmap_ext.
  intros _ k _. f_equal. destruct (get k o) as [fact|] eqn:Hget; [|done].
  simpl. unfold observe. do 2 f_equal.
  destruct (lookup_lt_is_Some_2 _ _ (Hvalid _ _ Hget)) as [u Hu].
  rewrite Hu. by eapply prefix_lookup_Some.
Qed.

Lemma summarizeNext_Normal recipe st st' :
  summarizeNext recipe st = (Normal tt, st') <->
  exists summary,
    summarizeRecipe recipe (objects st) = (Normal summary, objects st')
    /\ recipeSummary st' = assign (recipeName recipe) summary (recipeSummary st).
Proof.
  unfold summarizeNext.
  destruct (summarizeRecipe recipe (objects st)) as [[summary|e] h1].
  - split.
    + intros [= <-]. by exists summary.
    + intros (summary' & [= <- Hobj] & Hdict). destruct st'. simpl in *. by subst.
  - split; [done|]. by intros (summary' & [=] & _).
Qed.

Lemma summarizeNext_Throw recipe st e st' :
  summarizeNext recipe st = (Throw e, st') <->
  summarizeRecipe recipe (objects st) = (Throw e, objects st')
  /\ recipeSummary st' = recipeSummary st.
Proof.
  unfold summarizeNext.
  destruct (summarizeRecipe recipe (objects st)) as [[summary|e'] h1].
  - split; [done|]. by intros [[=] _].
  - split.
    + by intros [= <- <-].
    + intros [[= <- Hobj] Hdict]. destruct st'. simpl in *. by subst.
Qed.

(** The script does not create the key ["__proto__"]. *)
Lemma summarizeNext_no_proto recipe st r st' :
  get "__proto__" (recipeSummary st) = None ->
  summarizeNext recipe st = (r, st') ->
  get "__proto__" (recipeSummary st') = None.
Proof.
  intros Hproto. unfold summarizeNext.
  destruct (summarizeRecipe recipe (objects st)) as [[summary|e] h1];
    intros [= <- <-]; simpl; [|done].
  destruct (decide (recipeName recipe = "__proto__")) as [->|Hname].
  - by rewrite assign_proto.
  - rewrite assign_set by done. by rewrite get_set_ne.
Qed.

(** A loop ends with an exception when its body does for some element,
    the elements before having passed; the state is the one the body
    left. *)
Lemma forEach_Throw {S A} (body : A -> M S unit) (xs : list A) (s : S) e s' :
  forEach body xs s = (Throw e, s') <->
  exists before x after sBefore,
    xs = before ++ x :: after
    /\ forEach body before s = (Normal tt, sBefore)
    /\ body x sBefore = (Throw e, s').
Proof.
  revert s. induction xs as [|x xs IH]; intros s; cbn [forEach].
  { split; [done|]. intros (before & x & after & sB & Heq & _). by destruct before. }
  unfold bind. destruct (body x s) as [[[]|e1] s1] eqn:Hx.
  - rewrite IH. split.
    + intros (before & x' & after & sB & -> & Hbefore & Hfail).
      exists (x :: before), x', after, sB. split; [done|]. split; [|done].
      cbn [forEach]. unfold bind. by rewrite Hx.
    + intros (before & x' & after & sB & Heq & Hbefore & Hfail).
      destruct before as [|x0 before]; simplify_eq/=.
      { unfold ret in Hbefore; simplify_eq; congruence. }
      exists before, x', after, sB. split; [done|]. split; [|done].
      revert Hbefore. cbn [forEach]. unfold bind. by rewrite Hx.
  - split.
    + intros [= <- <-]. by exists [], x, xs, s.
    + intros (before & x' & after & sB & Heq & Hbefore & Hfail).
      destruct before as [|x0 before]; simplify_eq/=.
      * unfold ret in Hbefore; simplify_eq; congruence.
      * revert Hbefore. cbn [forEach]. unfold bind. by rewrite Hx.
Qed.

Lemma last_occurrence name (recipes : list Recipe) :
  name ∈ recipeName <$> recipes ->
  exists before recipe after,
    recipes = before ++ recipe :: after
    /\ recipeName recipe = name
    /\ Forall (fun r => recipeName r <> name) after.
Proof.
  induction recipes as [|r recipes IH]; [by intros ?%elem_of_nil|].
  rewrite fmap_cons. intros Hin.
  destruct (decide (name ∈ recipeName <$> recipes)) as [Hrest|Hrest].
  - destruct (IH Hrest) as (before & recipe & after & -> & Hname & Hafter).
    by exists (r :: before), recipe, after.
  - apply elem_of_cons in Hin as [->|?]; [|done].
    exists [], r, recipes. split; [done|]. split; [done|].
    apply Forall_forall. intros r' Hr' Heq. apply Hrest.
    apply list_elem_of_fmap. by exists r'.
Qed.

Lemma summarizeEach_Normal h0 recipes st st' :
  allocatesResults ->
  wellFormed h0 ->
  h0 `prefix_of` objects st ->
  get "__proto__" (recipeSummary st) = None ->
  forEach summarizeNext recipes st = (Normal tt, st') ->
  objects st `prefix_of` objects st'
  /\ (forall name,
        name ∉ recipeName <$> recipes \/ name = "__proto__" ->
        get name (recipeSummary st') = get name (recipeSummary st))
  /\ (forall before recipe after,
        recipes = before ++ recipe :: after ->
        recipeName recipe <> "__proto__" ->
        Forall (fun r => recipeName r <> recipeName recipe) after ->
        exists summary,
          get (recipeName recipe) (recipeSummary st') = Some summary
          /\ observed (Normal summary, objects st')
             = observed (summarizeRecipe recipe h0)).
Proof.
  intros Halloc Hwf. revert st.
  induction recipes as [|r recipes IH]; intros st Hprefix Hproto; cbn [forEach].
  { unfold ret. intros [= <-]. split; [done|]. split; [done|].
    intros before recipe after Heq. by destruct before. }
  unfold bind. destruct (summarizeNext r st) as [[[]|e] st1] eqn:Hstep; [|done].
  intros Hrest. pose proof (summarizeNext_no_proto _ _ _ _ Hproto Hstep) as Hproto1.
  apply summarizeNext_Normal in Hstep as (s1 & Hrun & Hdict).
  assert (wellFormed (objects st)) as Hwf1 by by eapply wellFormed_extend.
  pose proof (summarizeRecipe_refines r (objects st) Halloc Hwf1) as [Hgrow Hobs].
  rewrite Hrun in Hgrow, Hobs. simpl in Hgrow.
  destruct (IH st1) as (Hgrow' & Hother & Hlast); [by etrans|done|done|].
  split; [by etrans|]. split.
  - intros name Hname. rewrite Hother, Hdict.
    + destruct (decide (recipeName r = "__proto__")) as [Hr|Hr].
      * rewrite Hr. by rewrite assign_proto.
      * rewrite assign_set by done. apply get_set_ne.
        destruct Hname as [Hname| ->]; [|done].
        rewrite fmap_cons, not_elem_of_cons in Hname. destruct Hname as [Hne _].
        congruence.
    + destruct Hname as [Hname|Hname]; [left|by right].
      rewrite fmap_cons, not_elem_of_cons in Hname. by destruct Hname.
  - intros before recipe after Heq Hname Hafter.
    destruct before as [|r0 before]; simplify_eq/=; [|by eapply Hlast].
    exists s1. split.
    + rewrite Hother, Hdict; [rewrite assign_set by done; by apply get_set_eq|].
      left. intros (r' & Heq & Hr')%list_elem_of_fmap.
      by apply (proj1 (Forall_forall _ _) Hafter) in Hr'.
    + rewrite <-(observed_extend h0 (objects st) recipe Halloc Hwf Hprefix), Hrun.
      unfold observed. simpl. do 2 f_equal. apply entries_extend; [|done].
      intros k fact Hget.
      apply summarizeRecipe_valid in Hrun as (_ & _ & Hfacts); [|done].
      by eapply Hfacts.
Qed.

(** X12: when the conversion allocates its result, the object the script
    hands to [RunTest] has a summary under the name of every recipe but
    ["__proto__"] and under no other key, and the summary under a name is
    the one a call of [summarizeRecipe] on its own gives for the last
    recipe of that name: the calls do not disturb one another.  For a
    recipe named ["__proto__"] the assignment creates no entry. *)
Theorem main_summaries recipeData h summaries h' :
  allocatesResults ->
  wellFormed h ->
  main recipeData h = (Normal summaries, h') ->
  (forall name,
      is_Some (get name summaries)
      <-> name ∈ recipeName <$> recipeData /\ name <> "__proto__")
  /\ (forall before recipe after,
        recipeData = before ++ recipe :: after ->
        recipeName recipe <> "__proto__" ->
        Forall (fun r => recipeName r <> recipeName recipe) after ->
        exists summary,
          get (recipeName recipe) summaries = Some summary
          /\ observed (Normal summary, h') = observed (summarizeRecipe recipe h)).
Proof.
  intros Halloc Hwf. unfold main.
  destruct (forEach summarizeNext recipeData _) as [[[]|e] st] eqn:Hloop; [|done].
  intros [= <- <-].
  apply (summarizeEach_Normal h) in Hloop as (_ & Hother & Hlast); [|done..].
  split; [|done]. intros name. split.
  - intros Hsome. split.
    + destruct (decide (name ∈ recipeName <$> recipeData)) as [|Hnot]; [done|].
      rewrite (Hother name) in Hsome by by left. by destruct Hsome.
    + intros ->. rewrite (Hother "__proto__") in Hsome by by right. by destruct Hsome.
  - intros [(before & recipe & after & Heq & <- & Hafter)%last_occurrence Hname].
    destruct (Hlast _ _ _ Heq Hname Hafter) as (summary & -> & _). done.
Qed.

Lemma outcome_observed (r1 r2 : outcome RecipeSummary * heap) e :
  observed r1 = observed r2 -> r1.1 = Throw e <-> r2.1 = Throw e.
Proof.
  unfold observed. destruct r1 as [[s1|e1] h1], r2 as [[s2|e2] h2]; simpl; try done.
  intros [= ->]. done.
Qed.

Lemma outcome_observed_Normal (r1 r2 : outcome RecipeSummary * heap) :
  observed r1 = observed r2 ->
  (exists s, r1.1 = Normal s) <-> (exists s, r2.1 = Normal s).
Proof.
  unfold observed. destruct r1 as [[s1|e1] h1], r2 as [[s2|e2] h2]; simpl; try done.
  - intros _. split; eauto.
  - intros _. split; by intros [? ?].
Qed.

Lemma summarizeEach_Throw h0 recipes st e :
  allocatesResults ->
  wellFormed h0 ->
  h0 `prefix_of` objects st ->
  (forEach summarizeNext recipes st).1 = Throw e <->
  exists before recipe after,
    recipes = before ++ recipe :: after
    /\ Forall (fun r => exists summary, (summarizeRecipe r h0).1 = Normal summary) before
    /\ (summarizeRecipe recipe h0).1 = Throw e.
Proof.
  intros Halloc Hwf. revert st.
  induction recipes as [|r recipes IH]; intros st Hprefix; cbn [forEach].
  { split; [done|]. intros (before & recipe & after & Heq & _). by destruct before. }
  assert (wellFormed (objects st)) as Hwf1 by by eapply wellFormed_extend.
  pose proof (observed_extend h0 (objects st) r Halloc Hwf Hprefix) as Hobs.
  pose proof (summarizeRecipe_refines r (objects st) Halloc Hwf1) as [Hgrow _].
  unfold bind, summarizeNext at 1.
  destruct (summarizeRecipe r (objects st)) as [[s1|e1] h1] eqn:Hrun.
  - simpl in Hgrow. rewrite IH by (simpl; by etrans).
    apply outcome_observed_Normal in Hobs. simpl in Hobs.
    destruct (proj1 Hobs) as [s0 Hs0]; [by eauto|]. split.
    + intros (before & recipe & after & -> & Hbefore & Hthrow).
      exists (r :: before), recipe, after. split; [done|]. split; [|done].
      constructor; [by eauto|done].
    + intros (before & recipe & after & Heq & Hbefore & Hthrow).
      destruct before as [|r0 before]; simplify_eq/=; [congruence|].
      apply Forall_cons in Hbefore as [_ Hbefore]. by exists before, recipe, after.
  - simpl. apply (outcome_observed _ _ e1) in Hobs as Hthrow. simpl in Hthrow.
    pose proof (proj1 Hthrow eq_refl) as Hr0. split.
    + intros [= <-]. by exists [], r, recipes.
    + intros (before & recipe & after & Heq & Hbefore & Hrecipe).
      destruct before as [|r0 before]; simplify_eq/=; [congruence|].
      apply Forall_cons in Hbefore as [[s Hs] _]. congruence.
Qed.

Lemma main_Normal recipes h summaries h' :
  main recipes h = (Normal summaries, h') <->
  forEach summarizeNext recipes {| recipeSummary := empty; objects := h |}
  = (Normal tt, {| recipeSummary := summaries; objects := h' |}).
Proof.
  unfold main. destruct (forEach summarizeNext recipes _) as [[[]|e] [o h1]]; simpl.
  - split; by intros [= <- <-].
  - split; by intros [=].
Qed.

(** X13: the script ends with an exception exactly when [summarizeRecipe]
    fails for a recipe after the loop has passed the recipes before it,
    and it ends there: the exception is the one of that call and the heap
    is the one that call left, so no later recipe is summarised and
    [RunTest] is not reached.  When the conversion allocates its result,
    the failing recipe is the first for which a call of [summarizeRecipe]
    on its own fails. *)
Theorem main_first_failure recipeData h e :
  (forall h',
      main recipeData h = (Throw e, h') <->
      exists before recipe after summaries hBefore,
        recipeData = before ++ recipe :: after
        /\ main before h = (Normal summaries, hBefore)
        /\ summarizeRecipe recipe hBefore = (Throw e, h'))
  /\ (allocatesResults ->
      wellFormed h ->
      (main recipeData h).1 = Throw e <->
      exists before recipe after,
        recipeData = before ++ recipe :: after
        /\ Forall (fun r => exists summary, (summarizeRecipe r h).1 = Normal summary)
                  before
        /\ (summarizeRecipe recipe h).1 = Throw e).
Proof.
  split.
  - intros h'. split.
    + unfold main.
      destruct (forEach summarizeNext recipeData _) as [[[]|e'] st] eqn:Hloop; [done|].
      intros [= -> <-].
      apply forEach_Throw in Hloop as (before & recipe & after & [o hB] & Heq & Hbefore & Hfail).
      apply summarizeNext_Throw in Hfail as [Hfail _].
      exists before, recipe, after, o, hB. split; [done|]. split; [|done].
      by apply main_Normal.
    + intros (before & recipe & after & summaries & hB & -> & Hbefore & Hfail).
      apply main_Normal in Hbefore.
      assert (forEach summarizeNext (before ++ recipe :: after)
                {| recipeSummary := empty; objects := h |}
              = (Throw e, {| recipeSummary := summaries; objects := h' |})) as Hloop.
      { apply forEach_Throw. eexists before, recipe, after, _. split; [done|].
        split; [exact Hbefore|]. by apply summarizeNext_Throw. }
      unfold main. by rewrite Hloop.
  - intros Halloc Hwf.
    rewrite <-(summarizeEach_Throw h recipeData {| recipeSummary := empty; objects := h |} e
                 Halloc Hwf); [|done].
    unfold main. destruct (forEach summarizeNext recipeData _) as [[[]|e'] st]; simpl.
    + by split.
    + split; by intros [= ->].
Qed.

Lemma summarizeEach_keys recipes st st' :
  get "__proto__" (recipeSummary st) = None ->
  forEach summarizeNext recipes st = (Normal tt, st') ->
  (recipeSummary st').*1
  = (recipeSummary st).*1
    ++ firstOccurrences (recipeSummary st).*1
         (filter (fun name => name <> "__proto__") (recipeName <$> recipes)).
Proof.
  revert st. induction recipes as [|r recipes IH]; intros st Hproto; cbn [forEach].
  { unfold ret. intros [= <-]. simpl. by rewrite app_nil_r. }
  unfold bind. destruct (summarizeNext r st) as [[[]|e] st1] eqn:Hstep; [|done].
  intros Hrest. pose proof (summarizeNext_no_proto _ _ _ _ Hproto Hstep) as Hproto1.
  apply summarizeNext_Normal in Hstep as (s1 & _ & Hdict).
  rewrite (IH _ Hproto1 Hrest), fmap_cons, filter_cons.
  destruct (decide (recipeName r <> "__proto__")) as [Hname|Hname].
  - rewrite firstOccurrences_cons, Hdict, (assign_set _ _ _ Hname).
    assert ((set (recipeName r) s1 (recipeSummary st)).*1
            = (recipeSummary st).*1
              ++ firstOccurrences (recipeSummary st).*1 [recipeName r]) as ->; [|done].
    simpl. destruct (decide (recipeName r ∈ (recipeSummary st).*1)) as [Hin|Hnin].
    + rewrite app_nil_r. destruct (get (recipeName r) (recipeSummary st)) eqn:Hget.
      * by eapply set_keys_old.
      * by apply get_None in Hget.
    + apply set_keys_new. by apply get_None.
  - apply dec_stable in Hname. rewrite Hdict, Hname. by rewrite assign_proto.
Qed.

(** X14: the object the script hands to [RunTest] has its keys in the
    order in which the recipe names occur first, the name ["__proto__"]
    left out, for which no key is created; [Object.keys] lists them in
    that order when no recipe name spells an array index. *)
Theorem main_creation_order recipeData h summaries h' :
  main recipeData h = (Normal summaries, h') ->
  summaries.*1
  = firstOccurrences [] (filter (fun name => name <> "__proto__")
                                (recipeName <$> recipeData))
  /\ (Forall (fun recipe => is_array_index (recipeName recipe) = false) recipeData ->
      own_keys summaries
      = firstOccurrences [] (filter (fun name => name <> "__proto__")
                                    (recipeName <$> recipeData))).
Proof.
  unfold main.
  destruct (forEach summarizeNext recipeData _) as [[[]|e] st] eqn:Hloop; [|done].
  intros [= <- <-]. apply summarizeEach_keys in Hloop; [|done]. simpl in Hloop.
  split; [done|]. intros Hplain. rewrite <-Hloop. apply own_keys_plain.
  rewrite Hloop. apply Forall_forall. intros name [Hin _]%firstOccurrences_elem.
  apply list_elem_of_filter in Hin as [_ Hin].
  apply list_elem_of_fmap in Hin as (recipe & -> & Hin).
  by apply (proj1 (Forall_forall _ _) Hplain).
Qed.

End ScriptProperties.

(** * The further properties on the sample data *)

Module OnMenu.

Import Sample Menu.

Lemma letters_NoDup : NoDup letters.*1.
Proof. apply (bool_decide_unpack _). by vm_compute. Qed.

Lemma sortKeys_idempotent_witness :
  NoDup letters.*1
  /\ sortKeys letters = [("a", 2); ("b", 1)]
  /\ sortKeys (sortKeys letters) = sortKeys letters.
Proof.
  split; [exact letters_NoDup|]. split; [reflexivity|].
  exact (sortKeys_idempotent letters letters_NoDup).
Defined.

Lemma lettersProto_NoDup : NoDup lettersProto.*1.
Proof. apply (bool_decide_unpack _). by vm_compute. Qed.

(** The entry under ["__proto__"] is dropped, the two others are kept. *)
Lemma sortKeys_keeps_entries_witness :
  sortKeys lettersProto = [("a", 2); ("b", 1)]
  /\ get "a" (sortKeys lettersProto) = get "a" lettersProto
  /\ get "__proto__" lettersProto = Some 3
  /\ get "__proto__" (sortKeys lettersProto) = None
  /\ sortKeys lettersProto ≡ₚ filter (fun kv => kv.1 <> "__proto__") lettersProto.
Proof.
  destruct (sortKeys_keeps_entries lettersProto) as (Hget & Hproto & Hperm).
  split; [reflexivity|]. split; [by apply Hget|]. split; [reflexivity|].
  split; [exact Hproto|]. exact (Hperm lettersProto_NoDup).
Defined.

Lemma sortKeys_sorts_keys_witness :
  NoDup lettersProto.*1
  /\ Forall (fun k => is_array_index k = false) lettersProto.*1
  /\ own_keys (sortKeys lettersProto) = ["a"; "b"]
  /\ own_keys (sortKeys lettersProto)
     = filter (fun k => k <> "__proto__") (sort lettersProto.*1)
  /\ StronglySorted ascending (own_keys (sortKeys lettersProto)).
Proof.
  assert (Forall (fun k => is_array_index k = false) lettersProto.*1) as Hplain.
  { by repeat constructor. }
  split; [exact lettersProto_NoDup|]. split; [exact Hplain|]. split; [reflexivity|].
  exact (proj2 (sortKeys_sorts_keys lettersProto lettersProto_NoDup) Hplain).
Defined.

(** 2 g at 3 per gram. *)
Lemma calculateRealCost_not_negative_witness :
  @calculateRealCost (collaborators grocery fresh) unit (grams (of_Z 2)) (of_Z 3) tt
  = (Normal (of_Z 6), tt)
  /\ lt (of_Z 3) zero = false
  /\ lt (of_Z 6) zero = false.
Proof.
  split; [reflexivity|]. split; [reflexivity|].
  apply (calculateRealCost_not_negative (H := collaborators grocery fresh)
           (grams (of_Z 2)) (of_Z 3) tt (of_Z 6) tt).
  - reflexivity.
  - intros name type convertedUoM. simpl. by intros [= <-].
  - reflexivity.
Defined.

Lemma cheapestCost_not_negative_witness :
  exists summary h',
    @summarizeRecipe (collaborators grocery fresh) cake pantry = (Normal summary, h')
    /\ cheapestCost summary = of_Z 8
    /\ le zero (cheapestCost summary) = true.
Proof.
  eexists _, _. split; [reflexivity|]. split; [reflexivity|].
  eapply (cheapestCost_not_negative (H := collaborators grocery fresh) cake pantry).
  - intros lineItem o price Hitem Ho. simpl in Hitem.
    apply elem_of_cons in Hitem as [->|Hitem].
    { apply list_elem_of_singleton in Ho as ->. simpl. by intros [= <-]. }
    apply list_elem_of_singleton in Hitem as ->.
    apply list_elem_of_singleton in Ho as ->. simpl. by intros [= <-].
  - intros lineItem name type convertedUoM Hitem. simpl in Hitem.
    apply elem_of_cons in Hitem as [->|Hitem].
    { simpl. by intros [= <-]. }
    apply list_elem_of_singleton in Hitem as ->. simpl. by intros [= <-].
  - reflexivity.
Defined.

(** Protein, fat and protein again: the keys are created in the order
    ["Protein"], ["Fat"]. *)
Lemma aggregateNutrients_creation_order_witness :
  exists st',
    @aggregateNutrients (collaborators grocery fresh) [protein 0; fat 1; protein 1]
      (start pantry) = (Normal tt, st')
    /\ (existingNutrientFacts st').*1 = ["Protein"; "Fat"]
    /\ (existingNutrientFacts st').*1
       = (existingNutrientFacts (start pantry)).*1
         ++ firstOccurrences (existingNutrientFacts (start pantry)).*1
              (nutrientName <$> [protein 0; fat 1; protein 1]).
Proof.
  eexists. split; [reflexivity|]. split; [reflexivity|].
  apply (aggregateNutrients_creation_order (H := collaborators grocery fresh)
           [protein 0; fat 1; protein 1] (start pantry) _ eq_refl).
Defined.

Lemma pantry_wellFormed_deli : @wellFormed (collaborators deli fresh) pantry.
Proof.
  intros name product fact. simpl. unfold deli.
  intros ->%list_elem_of_singleton. simpl.
  intros ->%list_elem_of_singleton. simpl. lia.
Qed.

(** The only product sold has a nutrient named "constructor": the recipe
    ends with a [TypeError], and the theorem names that fact. *)
Lemma summarizeRecipe_exceptions_witness :
  exists h',
    @summarizeRecipe (collaborators deli fresh) snack pantry = (Throw TypeError, h')
    /\ (TypeError = NoCandidatesError
        \/ (exists message, TypeError = CollaboratorError message)
        \/ (TypeError = TypeError
            /\ exists lineItem product cost fact,
                 lineItem ∈ lineItems snack
                 /\ @findLowestCostProduct (collaborators deli fresh) lineItem
                    = Normal (product, cost)
                 /\ fact ∈ nutrientFacts product
                 /\ inherited (nutrientName fact) = true)).
Proof.
  eexists. split; [vm_compute; reflexivity|].
  eapply (summarizeRecipe_exceptions (H := collaborators deli fresh) snack pantry
            TypeError _ pantry_wellFormed_deli).
  vm_compute. reflexivity.
Defined.

Lemma summarizeRecipe_keeps_objects_witness :
  exists summary h',
    @summarizeRecipe (collaborators grocery fresh) cake pantry = (Normal summary, h')
    /\ @wellFormed (collaborators grocery fresh) h'
    /\ exists fact,
         get "Protein" (nutrientsAtCheapestCost summary) = Some fact
         /\ is_Some (h' !! quantityAmount fact).
Proof.
  eexists _, _. split; [reflexivity|].
  destruct (summarizeRecipe_keeps_objects (H := collaborators grocery fresh) cake pantry
              _ _ OnSamples.pantry_wellFormed eq_refl) as [Hwf Hfacts].
  split; [exact Hwf|]. eexists. split; [reflexivity|].
  exact (Hfacts _ "Protein" _ eq_refl eq_refl).
Defined.

Lemma summarizeRecipe_totals_witness :
  exists summary h',
    @summarizeRecipe (collaborators grocery fresh) cake pantry = (Normal summary, h')
    /\ totalOf h' (nutrientsAtCheapestCost summary) "Protein" = Some (of_Z 15)
    /\ exists winners,
         Forall2 (fun lineItem winner =>
                    @findLowestCostProduct (collaborators grocery fresh) lineItem
                    = Normal winner)
                 (lineItems cake) winners
         /\ forall name,
              totalOf h' (nutrientsAtCheapestCost summary) name
              = leftSum (@baseAmounts (collaborators grocery fresh) pantry name
                           (winner ← winners; nutrientFacts winner.1)).
Proof.
  eexists _, _. split; [reflexivity|]. split; [reflexivity|].
  apply (summarizeRecipe_totals (H := collaborators grocery fresh) cake pantry _ _
           (OnSamples.fresh_allocates grocery) OnSamples.pantry_wellFormed eq_refl).
Defined.

Lemma summarizeRecipe_keys_witness :
  exists summary h',
    @summarizeRecipe (collaborators grocery fresh) cake pantry = (Normal summary, h')
    /\ own_keys (nutrientsAtCheapestCost summary) = ["Protein"]
    /\ exists winners,
         Forall2 (fun lineItem winner =>
                    @findLowestCostProduct (collaborators grocery fresh) lineItem
                    = Normal winner)
                 (lineItems cake) winners
         /\ NoDup (own_keys (nutrientsAtCheapestCost summary))
         /\ (forall k,
               k ∈ own_keys (nutrientsAtCheapestCost summary)
               <-> k ∈ nutrientName <$> (winner ← winners; nutrientFacts winner.1))
         /\ (Forall (fun k => is_array_index k = false)
                    (nutrientName <$> (winner ← winners; nutrientFacts winner.1)) ->
             StronglySorted ascending (own_keys (nutrientsAtCheapestCost summary))).
Proof.
  eexists _, _. split; [reflexivity|]. split; [reflexivity|].
  apply (summarizeRecipe_keys (H := collaborators grocery fresh) cake pantry _ _ eq_refl).
Defined.

(** Four recipes, two of the name ["dough"] and one of the name
    ["__proto__"]: the summary under ["dough"] is the one of the last, 3 g
    of milk at 2 per gram, and there is none under ["__proto__"]. *)
Lemma main_summaries_witness :
  exists summaries h',
    @main (collaborators grocery fresh) carte pantry = (Normal summaries, h')
    /\ get "__proto__" summaries = None
    /\ (exists summary,
          get "dough" summaries = Some summary
          /\ cheapestCost summary = of_Z 6
          /\ observed (Normal summary, h')
             = observed (@summarizeRecipe (collaborators grocery fresh) richDough pantry))
    /\ (exists summary,
          get "cake" summaries = Some summary
          /\ observed (Normal summary, h')
             = observed (@summarizeRecipe (collaborators grocery fresh) cake pantry)).
Proof.
  edestruct (main_summaries (H := collaborators grocery fresh) carte pantry) as [_ Hlast];
    [exact (OnSamples.fresh_allocates grocery)
    |exact OnSamples.pantry_wellFormed
    |vm_compute; reflexivity
    |].
  eexists _, _. split; [vm_compute; reflexivity|]. split; [reflexivity|]. split.
  - destruct (Hlast [dough; hidden; cake] richDough [] eq_refl) as (summary & Hget & Hobs);
      [done|constructor|].
    exists summary. split; [exact Hget|]. split; [|exact Hobs].
    vm_compute in Hget. by injection Hget as <-.
  - apply (Hlast [dough; hidden] cake [richDough] eq_refl); [done|].
    by repeat constructor.
Defined.

(** The second recipe fails: the script ends with its exception, and the
    heap is the one the two calls left. *)
Lemma main_first_failure_witness :
  @main (collaborators grocery fresh) spoiled pantry
  = (Throw NoCandidatesError, pantry ++ [grams (of_Z 5); grams (of_Z 5)])
  /\ (@main (collaborators grocery fresh) spoiled pantry).1 = Throw NoCandidatesError.
Proof.
  destruct (main_first_failure (H := collaborators grocery fresh) spoiled pantry
              NoCandidatesError) as [Hends Hfirst].
  split.
  - apply Hends. eexists [dough], brine, [cake], _, _. split; [reflexivity|].
    split; [vm_compute; reflexivity|]. vm_compute. reflexivity.
  - apply (Hfirst (OnSamples.fresh_allocates grocery) OnSamples.pantry_wellFormed).
    exists [dough], brine, [cake]. split; [reflexivity|].
    split; [|vm_compute; reflexivity].
    repeat constructor. eexists. vm_compute. reflexivity.
Defined.

Lemma main_creation_order_witness :
  exists summaries h',
    @main (collaborators grocery fresh) carte pantry = (Normal summaries, h')
    /\ summaries.*1 = ["dough"; "cake"]
    /\ own_keys summaries
       = firstOccurrences [] (filter (fun name => name <> "__proto__")
                                     (recipeName <$> carte)).
Proof.
  edestruct (main_creation_order (H := collaborators grocery fresh) carte pantry)
    as [_ Hkeys]; [vm_compute; reflexivity|].
  eexists _, _. split; [vm_compute; reflexivity|]. split; [reflexivity|].
  apply Hkeys. by repeat constructor.
Defined.

End OnMenu.
